(** * Fourier seasonality of pymc-marketing: a shallow embedding

    The development embeds [pymc_marketing/mmm/fourier.py]:

    - [generate_fourier_modes], the pure feature generator, over the real
      numbers of the Standard Library (the IEEE doubles of the source are
      idealised: [sin], [cos] and [PI] are the real ones), and a second
      time over the binary64 numbers of the kernel, [F64], where
      overflow and NaN are those of the code;
    - [FourierBase.nodes], the labels of the harmonic axis;
    - [FourierBase.__init__], an error-and-store monad: the constructor
      raises one of three [ValueError]s and may replace its prior by a
      deep copy allocated in the object store;
    - [FourierBase.apply], the named-axis contraction of the feature matrix
      against the weight tensor, on tensors given by a shape and an
      indexing function; the calls into PyMC are parameters, each of
      which may raise;
    - [FourierBase.sample_curve], through the day grid it evaluates.  *)

From Stdlib Require Import String Ascii Bool ZArith Lia.
From Stdlib Require Import QArith Qround.
From Stdlib Require Import Reals Lra.
From Stdlib Require Import DecimalString DecimalPos DecimalZ.
From Stdlib Require Import List FinFun.
From Stdlib Require Floats Uint63.
Import ListNotations.

Close Scope Q_scope.
Close Scope R_scope.
Open Scope string_scope.
Open Scope list_scope.
Open Scope Z_scope.

(** ** Python and NumPy primitives used by the module *)

Module Py.

(** [range(start, stop)], which is also [pt.arange(start, stop)] on
    integers: empty when [stop <= start]. *)
Definition range (start stop : Z) : list Z :=
  map (fun i => (start + Z.of_nat i)%Z) (seq 0 (Z.to_nat (stop - start))).

(** [str(i)] for an integer, as an f-string renders it. *)
Definition str (i : Z) : string := NilZero.string_of_int (Z.to_int i).

(** The values [n_order] is called with in the module and its tests. *)
Inductive obj : Type :=
| Int (z : Z)
| Bool (b : bool)
| Float (q : Q)
| Str (s : string)
| NoneObj.

(** [isinstance(o, int)], with the integer value when it holds.  [bool]
    is a subclass of [int] in Python: [True] is the integer 1. *)
Definition as_int (o : obj) : option Z :=
  match o with
  | Int z => Some z
  | Bool b => Some (if b then 1 else 0)%Z
  | _ => None
  end.

(** An integer object of value at least one; a [bool] counts, being an
    [int] in Python. *)
Definition positive_integer (o : obj) : Prop :=
  exists z, as_int o = Some z /\ (1 <= z)%Z.

(** [a or b] on optional strings: [None] and the empty string are falsy. *)
Definition str_or (a : option string) (b : string) : string :=
  match a with
  | Some (String c s) => String c s
  | _ => b
  end.

(** [np.arange(stop)] for a real [stop], here a rational: the
    [ceil(stop)] integers [0, 1, ...] below [stop]. *)
Definition arange (stop : Q) : list Z := range 0 (Qceiling stop).

End Py.

(** ** The feature generator, [generate_fourier_modes] *)

(** A two-dimensional array, row by row. *)
Definition matrix : Type := list (list R).

(** The array has [rows] rows of [cols] columns each. *)
Definition has_shape (m : matrix) (rows cols : nat) : Prop :=
  length m = rows /\ Forall (fun r => length r = cols) m.

(** [m[p, c]], when the position exists. *)
Definition entry (m : matrix) (p c : nat) : option R :=
  match nth_error m p with
  | Some row => nth_error row c
  | None => None
  end.

(** [pt.concatenate([a, b], axis=1)] on two arrays with as many rows. *)
Definition concatenate_axis1 (a b : matrix) : matrix :=
  map (fun rs => fst rs ++ snd rs) (combine a b).

(** [x[:, None] * multiples]: the outer product of a vector with the
    integer multiples. *)
Definition outer (x : list R) (multiples : list Z) : matrix :=
  map (fun xp => map (fun k => (xp * IZR k)%R) multiples) x.

Definition generate_fourier_modes (periods : list R) (n_order : Z) : matrix :=
  let multiples := Py.range 1 (n_order + 1) in
  let x := map (fun p => (2 * PI * p)%R) periods in
  let values := outer x multiples in
  concatenate_axis1 (map (map sin) values) (map (map cos) values).

(** ** The harmonic axis labels, [FourierBase.nodes] *)

Definition nodes (n_order : Z) : list string :=
  flat_map
    (fun func => map (fun i => (func ++ "_" ++ Py.str i)%string)
                     (Py.range 1 (n_order + 1)))
    ["sin"; "cos"].

(** What a label stands for: the trigonometric function and the multiple. *)
Inductive trig : Type := Sin | Cos.

Definition trig_name (f : trig) : string :=
  match f with Sin => "sin" | Cos => "cos" end.

Definition trig_fun (f : trig) : R -> R :=
  match f with Sin => sin | Cos => cos end.

Definition label (f : trig) (k : Z) : string :=
  (trig_name f ++ "_" ++ Py.str k)%string.

(** The feature a label denotes at the period fraction [p]. *)
Definition mode (f : trig) (k : Z) (p : R) : R :=
  trig_fun f (2 * PI * p * IZR k)%R.

(** The row of features of one period fraction: the sines of the multiples
    [1..n_order], then their cosines. *)
Definition mode_row (n_order : Z) (p : R) : list R :=
  map (fun k => mode Sin k p) (Py.range 1 (n_order + 1))
  ++ map (fun k => mode Cos k p) (Py.range 1 (n_order + 1)).

(** ** Tensors of the symbolic backend

    A tensor is a shape and an indexing function; an index is the list of
    the positions along the axes, outermost first. *)

Record tensor : Type := Tensor {
  shape : list nat;
  item : list nat -> R
}.

(** [pt.as_tensor_variable] on a matrix whose rows have [cols] entries. *)
Definition as_tensor (cols : nat) (m : matrix) : tensor :=
  {| shape := [length m; cols];
     item := fun idx => nth (nth 1 idx 0%nat) (nth (nth 0 idx 0%nat) m []) 0%R |}.

(** The result position that the source axis [j] is moved to by the
    pattern [pat]. *)
Fixpoint position (j : nat) (pat : list (option nat)) : nat :=
  match pat with
  | [] => 0%nat
  | Some k :: rest => if Nat.eqb k j then 0%nat else S (position j rest)
  | None :: rest => S (position j rest)
  end.

(** The tensor whose axes are those of [t] placed as the pattern [pat]
    says: entry [Some j] of the pattern places the source axis [j],
    entry [None] (written ["x"] in the source) a new axis of length one. *)
Definition permute (pat : list (option nat)) (t : tensor) : tensor :=
  {| shape := map (fun a => match a with
                            | Some j => nth j (shape t) 1%nat
                            | None => 1%nat
                            end) pat;
     item := fun idx =>
       item t (map (fun j => nth (position j pat) idx 0%nat)
                   (seq 0 (length (shape t)))) |}.

(** The source axes a pattern places, in the order of the pattern. *)
Definition placed (pat : list (option nat)) : list nat :=
  flat_map (fun a => match a with Some j => [j] | None => [] end) pat.

Fixpoint has_repeat (l : list nat) : bool :=
  match l with
  | [] => false
  | x :: rest => existsb (Nat.eqb x) rest || has_repeat rest
  end.

(** [x.dimshuffle] with the pattern [pat].  A pattern that places a
    source axis twice is refused ("The same input dimension may not
    appear twice"): [None]. *)
Definition dimshuffle (pat : list (option nat)) (t : tensor) : option tensor :=
  if has_repeat (placed pat) then None else Some (permute pat t).

(** The shape of [a * b] under broadcasting, for operands with as many
    axes: an axis of length one stretches to the other length. *)
Definition broadcast_shape (s1 s2 : list nat) : list nat :=
  map (fun ab => if Nat.eqb (fst ab) 1 then snd ab else fst ab) (combine s1 s2).

(** The index an operand of shape [s] is read at: position 0 along the
    axes it has with length one. *)
Definition clip (s idx : list nat) : list nat :=
  map (fun ni => if Nat.eqb (fst ni) 1 then 0%nat else snd ni) (combine s idx).

(** Elementwise product with broadcasting. *)
Definition mul (a b : tensor) : tensor :=
  {| shape := broadcast_shape (shape a) (shape b);
     item := fun idx =>
       (item a (clip (shape a) idx) * item b (clip (shape b) idx))%R |}.

Fixpoint insert_at (k j : nat) (idx : list nat) : list nat :=
  match k, idx with
  | O, _ => j :: idx
  | S k', i :: rest => i :: insert_at k' j rest
  | S _, [] => [j]
  end.

Fixpoint remove_at {A : Type} (k : nat) (l : list A) : list A :=
  match k, l with
  | _, [] => []
  | O, _ :: rest => rest
  | S k', x :: rest => x :: remove_at k' rest
  end.

(** [f 0 + f 1 + ... + f (n-1)]. *)
Fixpoint sum_upto (n : nat) (f : nat -> R) : R :=
  match n with
  | O => 0%R
  | S m => (sum_upto m f + f m)%R
  end.

(** [t.sum(axis=k)]: the axis [k] is summed over and leaves the shape. *)
Definition sum_axis (k : nat) (t : tensor) : tensor :=
  {| shape := remove_at k (shape t);
     item := fun idx =>
       sum_upto (nth k (shape t) 0%nat) (fun j => item t (insert_at k j idx)) |}.

(** [dims.index(d)] on a tuple of names: the first position of [d]. *)
Fixpoint index_of (d : string) (dims : list string) : option nat :=
  match dims with
  | [] => None
  | x :: rest => if String.eqb x d then Some 0%nat
                 else option_map S (index_of d rest)
  end.

(** Modelled from the spec: [create_dim_handler] of [pymc_marketing.prior]
    is not among the sources.  The handler for the axes [desired_dims]
    aligns an operand with the named axes [dims] onto them: an axis is
    matched by its name, never by its position, and an axis the operand
    lacks is inserted with length one.  The alignment is a [dimshuffle],
    whose refusal is passed on. *)
Definition create_dim_handler (desired_dims : list string)
    (x : tensor) (dims : list string) : option tensor :=
  dimshuffle (map (fun d => index_of d dims) desired_dims) x.

(** ** Priors and the object store *)

(** Modelled from the spec: class [Prior] of [pymc_marketing.prior] is not
    among the sources.  A prior is a distribution name, the parameters of
    the distribution and the declared axes [dims], a tuple of names; the
    parameters play no role in this module. *)
Record Prior : Type := mkPrior {
  distribution : string;
  parameters : list (string * Q);
  dims : list string
}.

(** Priors are mutable objects, passed by reference: the store maps the
    addresses below [next] to the objects allocated so far. *)
Definition addr : Type := nat.

Record store : Type := mkStore {
  objects : addr -> Prior;
  next : addr
}.

Definition write (st : store) (a : addr) (v : Prior) : store :=
  {| objects := fun b => if Nat.eqb b a then v else objects st b;
     next := next st |}.

Definition alloc (st : store) (v : Prior) : addr * store :=
  (next st,
   {| objects := fun b => if Nat.eqb b (next st) then v else objects st b;
      next := S (next st) |}).

(** The three [ValueError]s of the constructor, by their messages:
    "n_order must be a positive integer", "Variable name cannot be the
    same as the prefix" and "Prior distribution must have dimension". *)
Inductive error : Type :=
| InvalidOrder
| NameCollision
| MissingAxis.

(** Statements that read and write the store and may raise: an exception
    leaves the store as the statements before it made it. *)
Definition M (A : Type) : Type := store -> (error + A) * store.

Definition ret {A : Type} (a : A) : M A := fun st => (inr a, st).

Definition raise {A : Type} (e : error) : M A := fun st => (inl e, st).

Definition bind {A B : Type} (c : M A) (k : A -> M B) : M B :=
  fun st =>
    match c st with
    | (inl e, st') => (inl e, st')
    | (inr a, st') => k a st'
    end.

Notation "x <- c ;; k" := (bind c (fun x => k))
  (at level 61, c at next level, right associativity).
Notation "c ;;; k" := (bind c (fun _ => k))
  (at level 61, right associativity).

(** [p.dims] *)
Definition get_dims (p : addr) : M (list string) :=
  fun st => (inr (dims (objects st p)), st).

(** Modelled from the spec: [Prior.deepcopy] is not among the sources.
    The copy is a new object with the contents of the original. *)
Definition deepcopy (p : addr) : M addr :=
  fun st => let (a, st') := alloc st (objects st p) in (inr a, st').

(** Modelled from the spec: the setter of [Prior.dims] is not among the
    sources.  Assigning a single name stores the one-element tuple. *)
Definition set_dims_str (p : addr) (name : string) : M unit :=
  fun st =>
    let v := objects st p in
    (inr tt, write st p (mkPrior (distribution v) (parameters v) [name])).

(** Modelled from the spec: the module [pymc_marketing.constants] is not
    among the sources.  The docstring of [fourier.py] gives the yearly
    period as 365.25 days and the monthly one as 365.25 / 12 days. *)
Definition DAYS_IN_YEAR : Q := (1461 # 4)%Q.

Definition DAYS_IN_MONTH : Q := (DAYS_IN_YEAR / 12)%Q.

(** ** Dictionaries and the model context *)

(** A Python [dict] with string keys, in insertion order. *)
Definition dict (V : Type) : Type := list (string * V).

(** [d.get(k)] *)
Fixpoint dict_get {V : Type} (k : string) (d : dict V) : option V :=
  match d with
  | [] => None
  | (k', v) :: rest => if String.eqb k' k then Some v else dict_get k rest
  end.

(** [d[k] = v]: the value of an existing key is replaced in place, a new
    key is added at the end. *)
Fixpoint dict_set {V : Type} (k : string) (v : V) (d : dict V) : dict V :=
  match d with
  | [] => [(k, v)]
  | (k', v') :: rest =>
      if String.eqb k' k then (k', v) :: rest
      else (k', v') :: dict_set k v rest
  end.

(** The values of a coordinate: labels, or numbers. *)
Inductive coordinate : Type :=
| Labels (l : list string)
| Numbers (l : list Q).

(** What the module calls in a model context.  These operations belong
    to PyMC and to [pymc_marketing.prior], neither of which is among the
    sources: they are parameters of the embedding, and each of them may
    raise, which is [None].
    - [new_model coords] is [pm.Model(coords=coords)];
    - [add_coord name values m] is [model.add_coord(name, values)];
    - [create_variable prior name m] is [prior.create_variable(name)] in
      the context [m]: the tensor of the weights;
    - [deterministic name var dims m] is
      [pm.Deterministic(name, var, dims=dims)]. *)
Record backend : Type := Backend {
  model : Type;
  new_model : dict coordinate -> option model;
  add_coord : string -> coordinate -> model -> option model;
  create_variable : Prior -> string -> model -> option (tensor * model);
  deterministic : string -> tensor -> list string -> model -> option model
}.

(** ** The class [FourierBase] and its two subclasses *)

Module FourierBase.

(** The class attributes: [days_in_period] is set by the subclasses,
    [prefix] is "fourier" and [default_prior] is one shared object. *)
Record class : Type := Class {
  days_in_period : Q;
  class_prefix : string;
  default_prior : addr
}.

Record t : Type := New {
  cls : class;
  n_order : Z;
  prefix : string;
  prior : addr;
  variable_name : string
}.

(** [FourierBase.__init__] *)
Definition init (c : class) (n_order : Py.obj) (prefix : option string)
    (prior : option addr) (name : option string) : M t :=
  match Py.as_int n_order with
  | None => raise InvalidOrder
  | Some n =>
      if n <? 1 then raise InvalidOrder
      else
        let prefix := Py.str_or prefix (class_prefix c) in
        let prior := match prior with
                     | Some p => p
                     | None => default_prior c
                     end in
        let variable_name := Py.str_or name (prefix ++ "_beta")%string in
        if String.eqb variable_name prefix then raise NameCollision
        else
          d <- get_dims prior ;;
          prior <- match d with
                   | [] => p <- deepcopy prior ;;
                           set_dims_str p prefix ;;;
                           ret p
                   | _ :: _ => ret prior
                   end ;;
          d <- get_dims prior ;;
          if negb (existsb (String.eqb prefix) d) then raise MissingAxis
          else ret (New c n prefix prior variable_name)
  end.

Definition DUMMY_DIM : string := "DATE".

(** [FourierBase.apply] on the backend [B].  [ctx] is the model on the
    context stack, if there is one ([pm.modelcontext(None)] raises
    without), and [result_callback] the optional callback, which may
    raise as well.  The result is the tensor returned and the model as
    the call leaves it; [None] stands for an exception. *)
Definition apply (B : backend) (st : store) (ctx : option (model B)) (self : t)
    (dayofyear : list R)
    (result_callback : option (tensor -> model B -> option (model B)))
  : option (tensor * model B) :=
  let periods :=
    map (fun d => (d / Q2R (days_in_period (cls self)))%R) dayofyear in
  match ctx with
  | None => None
  | Some m =>
  match add_coord B (prefix self) (Labels (nodes (n_order self))) m with
  | None => None
  | Some m1 =>
  match create_variable B (objects st (prior self)) (variable_name self) m1 with
  | None => None
  | Some (beta, m2) =>
      let fourier_modes := generate_fourier_modes periods (n_order self) in
      let prior_dims := dims (objects st (prior self)) in
      match index_of (prefix self) prior_dims with
      | None => None
      | Some prefix_idx =>
          let result_dims := DUMMY_DIM :: prior_dims in
          let dim_handler := create_dim_handler result_dims in
          match dim_handler
                  (as_tensor (length (nodes (n_order self))) fourier_modes)
                  [DUMMY_DIM; prefix self] with
          | None => None
          | Some features =>
          match dim_handler beta prior_dims with
          | None => None
          | Some weights =>
              let result := mul features weights in
              match result_callback with
              | None => Some (sum_axis (prefix_idx + 1) result, m2)
              | Some callback =>
                  match callback result m2 with
                  | None => None
                  | Some m3 => Some (sum_axis (prefix_idx + 1) result, m3)
                  end
              end
          end
          end
      end
  end
  end
  end.

(** The day grid of [sample_curve]: [np.arange(self.days_in_period + 1)]. *)
Definition full_period (self : t) : list Z :=
  Py.arange (days_in_period (cls self) + 1)%Q.



(** The statements of [__init__] after its first two checks, for the
    proofs about the constructor. *)
Definition init_prior (c : class) (n : Z) (prefix : string)
    (prior : addr) (variable_name : string) : M t :=
  d <- get_dims prior ;;
  prior <- match d with
           | [] => p <- deepcopy prior ;;
                   set_dims_str p prefix ;;;
                   ret p
           | _ :: _ => ret prior
           end ;;
  d <- get_dims prior ;;
  if negb (existsb (String.eqb prefix) d) then raise MissingAxis
  else ret (New c n prefix prior variable_name).

End FourierBase.

(** The object [Prior("Laplace", mu=0, b=1)] built with the class. *)
Definition laplace_prior : Prior :=
  mkPrior "Laplace" [("mu", 0%Q); ("b", 1%Q)] [].

(** The store once the module is loaded: the default prior at address 0. *)
Definition initial_store : store :=
  {| objects := fun _ => laplace_prior; next := 1%nat |}.

Definition YearlyFourier : FourierBase.class :=
  FourierBase.Class DAYS_IN_YEAR "fourier" 0%nat.

Definition MonthlyFourier : FourierBase.class :=
  FourierBase.Class DAYS_IN_MONTH "fourier" 0%nat.

(** The store of the tests: the default prior at address 0 and the prior
    [p] a test builds at address 1. *)
Definition store_with (p : Prior) : store := snd (alloc initial_store p).

(** The index [idx] is within the shape [s]. *)
Definition in_range (s idx : list nat) : Prop :=
  Forall2 (fun i n => (i < n)%nat) idx s.

(** The instance [YearlyFourier(n_order=2)] and its monthly counterpart,
    each with the copy of the default prior at address 1. *)
Definition yearly_2 : FourierBase.t :=
  FourierBase.New YearlyFourier 2 "fourier" 1%nat "fourier_beta".

(** ** The coordinates of [sample_prior] *)

(** The first two statements of [FourierBase.sample_prior], on the
    optional [coords] of the caller: [coords = coords or {}] keeps a
    dictionary that is not empty and makes a new one otherwise, then
    [coords[self.prefix] = self.nodes] writes into it.  The result is the
    dictionary handed to [Prior.sample_prior] and the dictionary of the
    caller as the call leaves it. *)
Definition sample_prior_coords (self : FourierBase.t)
    (coords : option (dict (list string)))
  : dict (list string) * option (dict (list string)) :=
  let labels := nodes (FourierBase.n_order self) in
  match coords with
  | Some (kv :: rest) =>
      let d := dict_set (FourierBase.prefix self) labels (kv :: rest) in
      (d, Some d)
  | Some [] => (dict_set (FourierBase.prefix self) labels [], Some [])
  | None => (dict_set (FourierBase.prefix self) labels [], None)
  end.

(** ** A backend to run the module on *)

Fixpoint list_eqb {A : Type} (eqb : A -> A -> bool) (l1 l2 : list A) : bool :=
  match l1, l2 with
  | [], [] => true
  | x :: r1, y :: r2 => eqb x y && list_eqb eqb r1 r2
  | _, _ => false
  end.

Definition coordinate_eqb (a b : coordinate) : bool :=
  match a, b with
  | Labels x, Labels y => list_eqb String.eqb x y
  | Numbers x, Numbers y => list_eqb Qeq_bool x y
  | _, _ => false
  end.

Definition coordinate_length (c : coordinate) : nat :=
  match c with
  | Labels l => length l
  | Numbers l => length l
  end.

Fixpoint coord_sizes (cs : dict coordinate) (names : list string)
  : option (list nat) :=
  match names with
  | [] => Some []
  | d :: rest =>
      match dict_get d cs, coord_sizes cs rest with
      | Some c, Some ns => Some (coordinate_length c :: ns)
      | _, _ => None
      end
  end.

(** A model that is its coordinates.  A name reserved for the samples is
    refused, and so is a name that has other values already. *)
Definition coords_add_coord (name : string) (values : coordinate)
    (cs : dict coordinate) : option (dict coordinate) :=
  if existsb (String.eqb name) ["draw"; "chain"; "__sample__"] then None
  else match dict_get name cs with
       | Some old => if coordinate_eqb values old then Some cs else None
       | None => Some (dict_set name values cs)
       end.

Definition coords_new_model (coords : dict coordinate)
  : option (dict coordinate) :=
  fold_left (fun m kv => match m with
                         | Some cs => coords_add_coord (fst kv) (snd kv) cs
                         | None => None
                         end)
            coords (Some []).

(** The variable of a prior has one axis per declared dimension, as long
    as the coordinate of the dimension; a dimension without coordinate
    and a variable named as one of its dimensions are refused.  Its
    values are [values]. *)
Definition coords_create_variable (values : list nat -> R) (prior : Prior)
    (name : string) (cs : dict coordinate)
  : option (tensor * dict coordinate) :=
  if existsb (String.eqb name) (dims prior) then None
  else option_map (fun s => (Tensor s values, cs)) (coord_sizes cs (dims prior)).

Definition coords_deterministic (name : string) (var : tensor)
    (dims : list string) (cs : dict coordinate) : option (dict coordinate) :=
  if existsb (String.eqb name) dims then None else Some cs.

(** The backend the examples run on: it keeps the coordinates of the
    model and nothing else, and every weight takes the value [values]
    gives.  No theorem is about this backend; they hold for every one. *)
Definition coords_backend (values : list nat -> R) : backend :=
  Backend (dict coordinate) coords_new_model coords_add_coord
          (coords_create_variable values) coords_deterministic.

(** ** The feature generator on IEEE doubles *)

Module F64.

Import PrimFloat.

(** [pt.pi], the double nearest to the number pi. *)
Definition pi : float := 0x1.921fb54442d18p+1%float.

(** The double an integer multiple is converted to when it is multiplied
    with a double (exactly, below 2^53). *)
Definition of_int (k : Z) : float :=
  if (k <? 0)%Z then opp (of_uint63 (Uint63.of_Z (- k)))
  else of_uint63 (Uint63.of_Z k).

(** The sine and the cosine of the mathematical library, which are not
    part of the module: parameters. *)
Record libm : Type := Libm {
  sin : float -> float;
  cos : float -> float
}.

Definition matrix : Type := list (list float).

Definition entry (m : matrix) (p c : nat) : option float :=
  match nth_error m p with
  | Some row => nth_error row c
  | None => None
  end.

Definition concatenate_axis1 (a b : matrix) : matrix :=
  map (fun rs => fst rs ++ snd rs) (combine a b).

Definition outer (x : list float) (multiples : list Z) : matrix :=
  map (fun xp => map (fun k => mul xp (of_int k)) multiples) x.

(** [generate_fourier_modes] as the code computes it, in double
    arithmetic: every product is rounded and may overflow. *)
Definition generate_fourier_modes (lm : libm) (periods : list float)
    (n_order : Z) : matrix :=
  let multiples := Py.range 1 (n_order + 1) in
  let x := map (fun p => mul (mul 2%float pi) p) periods in
  let values := outer x multiples in
  concatenate_axis1 (map (map (sin lm)) values) (map (map (cos lm)) values).

(** The angle of the harmonic [k] at the period fraction [p], as the
    code computes it. *)
Definition angle (p : float) (k : Z) : float :=
  mul (mul (mul 2%float pi) p) (of_int k).

(** [-1 <= v <= 1], which no NaN satisfies. *)
Definition in_unit_interval (v : float) : bool :=
  leb (-1)%float v && leb v 1%float.

(** What the C standard and IEEE 754 give for the two functions: a
    result between -1 and 1 at a finite argument, NaN at an infinity
    and at NaN. *)
Definition conforms (lm : libm) : Prop :=
  (forall x, is_finite x = true ->
             in_unit_interval (sin lm x) = true
             /\ in_unit_interval (cos lm x) = true)
  /\ (forall x, is_finite x = false ->
                is_nan (sin lm x) = true /\ is_nan (cos lm x) = true).

(** A library of the least content that conforms: it shows that the
    contract can be met and lets the generator run on doubles.  The
    theorems hold for every conforming library. *)
Definition flat_libm : libm :=
  Libm (fun x => if is_finite x then 0%float else nan)
       (fun x => if is_finite x then 1%float else nan).

(** The double nearest to 1e308: a finite input whose angle overflows. *)
Definition huge : float := 0x1.1ccf385ebc8ap+1023%float.

End F64.
(** * Properties *)

(** ** Facts about the Python primitives *)

Module PyFacts.

Lemma range_length start stop :
  length (Py.range start stop) = Z.to_nat (stop - start).
Proof. unfold Py.range. now rewrite length_map, length_seq. Qed.

Lemma range_nth_error start stop i :
  (i < Z.to_nat (stop - start))%nat ->
  nth_error (Py.range start stop) i = Some (start + Z.of_nat i)%Z.
Proof.
  intros Hi. unfold Py.range.
  rewrite nth_error_map, nth_error_seq.
  destruct (Nat.ltb_spec i (Z.to_nat (stop - start))); [reflexivity | lia].
Qed.

Lemma range_In start stop k :
  In k (Py.range start stop) <-> (start <= k < stop)%Z.
Proof.
  unfold Py.range. rewrite in_map_iff. split.
  - intros (i & <- & Hi). apply in_seq in Hi. lia.
  - intros Hk. exists (Z.to_nat (k - start)). split; [lia |].
    apply in_seq. lia.
Qed.

Lemma range_NoDup start stop : NoDup (Py.range start stop).
Proof.
  unfold Py.range. apply Injective_map_NoDup.
  - intros i j Hij. lia.
  - apply seq_NoDup.
Qed.

Lemma str_inj i j : Py.str i = Py.str j -> i = j.
Proof.
  unfold Py.str. intros H.
  apply DecimalZ.to_int_inj.
  assert (Hs : forall d, NilZero.int_of_string (NilZero.string_of_int (Z.to_int d))
                         = Some (Z.to_int d)).
  { intros d. apply NilZero.isi.
    - destruct d; simpl; try discriminate.
      intros [= E]. now apply (Unsigned.to_uint_nonnil p).
    - destruct d; simpl; try discriminate.
      intros [= E]. now apply (Unsigned.to_uint_nonnil p). }
  pose proof (Hs i) as Hi. rewrite H, Hs in Hi. now injection Hi.
Qed.

End PyFacts.

(** *** The rows of the feature matrix *)

Lemma concatenate_axis1_map {A} (f g : A -> list R) (l : list A) :
  concatenate_axis1 (map f l) (map g l) = map (fun a => f a ++ g a) l.
Proof.
  unfold concatenate_axis1.
  induction l as [|a l IH]; simpl; [reflexivity | now f_equal].
Qed.

Lemma generate_fourier_modes_rows periods n_order :
  generate_fourier_modes periods n_order = map (mode_row n_order) periods.
Proof.
  unfold generate_fourier_modes, outer.
  rewrite !map_map.
  rewrite (concatenate_axis1_map
             (fun p => map sin (map (fun k => (2 * PI * p * IZR k)%R)
                                    (Py.range 1 (n_order + 1))))
             (fun p => map cos (map (fun k => (2 * PI * p * IZR k)%R)
                                    (Py.range 1 (n_order + 1))))).
  apply map_ext. intros p. unfold mode_row. now rewrite !map_map.
Qed.

Lemma mode_row_length n_order p :
  length (mode_row n_order p) = Z.to_nat (2 * n_order).
Proof.
  unfold mode_row.
  rewrite length_app, !length_map, PyFacts.range_length. lia.
Qed.

Lemma mode_row_sin n_order p c :
  0 <= c < n_order ->
  nth_error (mode_row n_order p) (Z.to_nat c) = Some (mode Sin (c + 1) p).
Proof.
  intros Hc. unfold mode_row.
  rewrite nth_error_app1 by (rewrite length_map, PyFacts.range_length; lia).
  rewrite nth_error_map, PyFacts.range_nth_error by lia.
  cbv beta. now replace (1 + Z.of_nat (Z.to_nat c)) with (c + 1) by lia.
Qed.

Lemma mode_row_cos n_order p c :
  n_order <= c < 2 * n_order -> 1 <= n_order ->
  nth_error (mode_row n_order p) (Z.to_nat c)
  = Some (mode Cos (c - n_order + 1) p).
Proof.
  intros Hc Hn. unfold mode_row.
  rewrite nth_error_app2 by (rewrite length_map, PyFacts.range_length; lia).
  rewrite length_map, PyFacts.range_length.
  rewrite nth_error_map, PyFacts.range_nth_error by lia.
  cbv beta.
  now replace (1 + Z.of_nat (Z.to_nat c - Z.to_nat (n_order + 1 - 1)))
    with (c - n_order + 1) by lia.
Qed.

Lemma entry_generate_fourier_modes periods n_order p c x :
  nth_error periods p = Some x ->
  entry (generate_fourier_modes periods n_order) p c
  = nth_error (mode_row n_order x) c.
Proof.
  intros Hp. unfold entry.
  now rewrite generate_fourier_modes_rows, nth_error_map, Hp.
Qed.

Lemma has_shape_generate_fourier_modes periods n_order :
  has_shape (generate_fourier_modes periods n_order)
            (length periods) (Z.to_nat (2 * n_order)).
Proof.
  rewrite generate_fourier_modes_rows. split.
  - apply length_map.
  - apply Forall_map, Forall_forall. intros p _. apply mode_row_length.
Qed.

(** *** The labels *)

Lemma nodes_app n_order :
  nodes n_order
  = map (label Sin) (Py.range 1 (n_order + 1))
    ++ map (label Cos) (Py.range 1 (n_order + 1)).
Proof. unfold nodes. simpl. now rewrite app_nil_r. Qed.

Lemma label_inj f g i j : label f i = label g j -> f = g /\ i = j.
Proof.
  unfold label.
  destruct f, g; simpl; intros [= H]; try discriminate;
    (split; [reflexivity | now apply PyFacts.str_inj]).
Qed.

Lemma nodes_length n_order : length (nodes n_order) = Z.to_nat (2 * n_order).
Proof.
  rewrite nodes_app, length_app, !length_map, PyFacts.range_length. lia.
Qed.

Lemma nodes_NoDup n_order : NoDup (nodes n_order).
Proof.
  rewrite nodes_app. apply NoDup_app.
  - apply Injective_map_NoDup; [| apply PyFacts.range_NoDup].
    intros i j H. now apply label_inj in H.
  - apply Injective_map_NoDup; [| apply PyFacts.range_NoDup].
    intros i j H. now apply label_inj in H.
  - intros s Hs Hc.
    apply in_map_iff in Hs as (i & <- & _).
    apply in_map_iff in Hc as (j & Hj & _).
    apply label_inj in Hj as [Hj _]. discriminate.
Qed.

Lemma nodes_sin n_order c :
  0 <= c < n_order ->
  nth_error (nodes n_order) (Z.to_nat c) = Some (label Sin (c + 1)).
Proof.
  intros Hc. rewrite nodes_app.
  rewrite nth_error_app1 by (rewrite length_map, PyFacts.range_length; lia).
  rewrite nth_error_map, PyFacts.range_nth_error by lia.
  cbv beta. now replace (1 + Z.of_nat (Z.to_nat c)) with (c + 1) by lia.
Qed.

Lemma nodes_cos n_order c :
  n_order <= c < 2 * n_order -> 1 <= n_order ->
  nth_error (nodes n_order) (Z.to_nat c) = Some (label Cos (c - n_order + 1)).
Proof.
  intros Hc Hn. rewrite nodes_app.
  rewrite nth_error_app2 by (rewrite length_map, PyFacts.range_length; lia).
  rewrite length_map, PyFacts.range_length.
  rewrite nth_error_map, PyFacts.range_nth_error by lia.
  cbv beta.
  now replace (1 + Z.of_nat (Z.to_nat c - Z.to_nat (n_order + 1 - 1)))
    with (c - n_order + 1) by lia.
Qed.

(** [index_of] finds the position of a label that occurs once. *)
Lemma index_of_nth_error (l : list string) :
  NoDup l -> forall i s, nth_error l i = Some s -> index_of s l = Some i.
Proof.
  induction 1 as [|x l Hx Hl IH]; intros [|i] s Hs; simpl in *; try discriminate.
  - injection Hs as <-. now rewrite String.eqb_refl.
  - destruct (String.eqb_spec x s) as [->|_].
    + exfalso. apply Hx. eapply nth_error_In, Hs.
    + now rewrite (IH i s Hs).
Qed.

Lemma index_of_sin n_order k :
  1 <= k <= n_order ->
  index_of (label Sin k) (nodes n_order) = Some (Z.to_nat (k - 1)).
Proof.
  intros Hk. apply index_of_nth_error; [apply nodes_NoDup |].
  rewrite nodes_sin by lia. do 2 f_equal. lia.
Qed.

Lemma index_of_cos n_order k :
  1 <= k <= n_order ->
  index_of (label Cos k) (nodes n_order) = Some (Z.to_nat (n_order + k - 1)).
Proof.
  intros Hk. apply index_of_nth_error; [apply nodes_NoDup |].
  rewrite nodes_cos by lia. do 2 f_equal. lia.
Qed.

(** ** The unit tests of the module, replayed on the embedding *)

Example test_nodes : nodes 2 = ["sin_1"; "sin_2"; "cos_1"; "cos_2"].
Proof. reflexivity. Qed.

Example test_bad_order :
  map (fun o => fst (FourierBase.init YearlyFourier o None None None
                       initial_store))
      [Py.Int 0; Py.Int (-1); Py.Int (-100); Py.Float (5 # 2)]
  = [inl InvalidOrder; inl InvalidOrder; inl InvalidOrder; inl InvalidOrder].
Proof. reflexivity. Qed.

Example test_default_construction :
  fst (FourierBase.init YearlyFourier (Py.Int 2) None None None initial_store)
  = inr yearly_2.
Proof. reflexivity. Qed.

Example test_prior_doesnt_have_prefix :
  fst (FourierBase.init YearlyFourier (Py.Int 2) None (Some 1%nat) None
         (store_with (mkPrior "Normal" [] ["hierarchy"])))
  = inl MissingAxis.
Proof. reflexivity. Qed.

Example test_error_with_prefix_and_name :
  fst (FourierBase.init YearlyFourier (Py.Int 2) (Some "variable_name") None
         (Some "variable_name") initial_store)
  = inl NameCollision.
Proof. reflexivity. Qed.

Example test_change_name :
  option_map FourierBase.variable_name
    (match fst (FourierBase.init YearlyFourier (Py.Int 2) None None
                  (Some "variable_name") initial_store) with
     | inr self => Some self
     | inl _ => None
     end)
  = Some "variable_name".
Proof. reflexivity. Qed.

Example test_sample_curve_days :
  length (FourierBase.full_period yearly_2) = 367%nat
  /\ nth_error (FourierBase.full_period yearly_2) 366 = Some 366.
Proof. split; reflexivity. Qed.

(** ** The feature matrix: shape, entries, bounds *)

(** C1: for an order of at least one and any input of length L,
    [generate_fourier_modes] returns L rows of [2 * n_order] columns; in
    the row of the period [x], column [c] holds the sine of
    [2 * PI * x * (c + 1)] when [0 <= c < n_order] and the cosine of
    [2 * PI * x * (c - n_order + 1)] when [n_order <= c < 2 * n_order]:
    the sines of the multiples 1..n_order come before the cosines. *)
Theorem generate_fourier_modes_spec (periods : list R) (n_order : Z) :
  1 <= n_order ->
  has_shape (generate_fourier_modes periods n_order)
            (length periods) (Z.to_nat (2 * n_order))
  /\ forall (p : nat) (x : R) (c : Z),
      nth_error periods p = Some x ->
      (0 <= c < n_order ->
       entry (generate_fourier_modes periods n_order) p (Z.to_nat c)
       = Some (sin (2 * PI * x * IZR (c + 1)))) /\
      (n_order <= c < 2 * n_order ->
       entry (generate_fourier_modes periods n_order) p (Z.to_nat c)
       = Some (cos (2 * PI * x * IZR (c - n_order + 1)))).
Proof.
  intros Hn. split; [apply has_shape_generate_fourier_modes |].
  intros p x c Hp. split; intros Hc.
  - rewrite (entry_generate_fourier_modes _ _ _ _ _ Hp).
    now rewrite mode_row_sin.
  - rewrite (entry_generate_fourier_modes _ _ _ _ _ Hp).
    now rewrite mode_row_cos.
Qed.

Lemma generate_fourier_modes_spec_witness :
  1 <= 2 /\
  has_shape (generate_fourier_modes [0%R; (1 / 4)%R] 2) 2 4 /\
  entry (generate_fourier_modes [0%R; (1 / 4)%R] 2) 1 3
  = Some (cos (2 * PI * (1 / 4) * IZR 2)).
Proof.
  split; [lia |].
  destruct (generate_fourier_modes_spec [0%R; (1 / 4)%R] 2) as [Hs He]; [lia |].
  split; [exact Hs |].
  destruct (He 1%nat (1 / 4)%R 3) as [_ Hcos]; [reflexivity |].
  apply Hcos. lia.
Defined.

(** C3: the labels of the harmonic axis are "sin_1", ..., "sin_n_order",
    "cos_1", ..., "cos_n_order" in that order; there are [2 * n_order] of
    them, all different; the label at position [c] names column [c] of
    the feature matrix, which holds the function and the multiple the
    label spells; for the order 2 the labels are "sin_1", "sin_2",
    "cos_1", "cos_2". *)
Theorem nodes_spec (n_order : Z) :
  1 <= n_order ->
  nodes n_order
  = map (fun k => ("sin_" ++ Py.str k)%string) (Py.range 1 (n_order + 1))
    ++ map (fun k => ("cos_" ++ Py.str k)%string) (Py.range 1 (n_order + 1))
  /\ length (nodes n_order) = Z.to_nat (2 * n_order)
  /\ NoDup (nodes n_order)
  /\ (forall c, 0 <= c < 2 * n_order ->
      exists f k,
        (f, k) = (if c <? n_order then (Sin, c + 1) else (Cos, c - n_order + 1))
        /\ nth_error (nodes n_order) (Z.to_nat c)
           = Some (trig_name f ++ "_" ++ Py.str k)%string
        /\ forall periods p x,
            nth_error periods p = Some x ->
            entry (generate_fourier_modes periods n_order) p (Z.to_nat c)
            = Some (trig_fun f (2 * PI * x * IZR k)))
  /\ nodes 2 = ["sin_1"; "sin_2"; "cos_1"; "cos_2"].
Proof.
  intros Hn. repeat split.
  - apply nodes_app.
  - apply nodes_length.
  - apply nodes_NoDup.
  - intros c Hc. destruct (Z.ltb_spec c n_order) as [Hlt | Hge].
    + exists Sin, (c + 1). repeat split.
      * now apply nodes_sin.
      * intros periods p x Hp.
        rewrite (entry_generate_fourier_modes _ _ _ _ _ Hp).
        now rewrite mode_row_sin.
    + exists Cos, (c - n_order + 1). repeat split.
      * now apply nodes_cos.
      * intros periods p x Hp.
        rewrite (entry_generate_fourier_modes _ _ _ _ _ Hp).
        now rewrite mode_row_cos.
Qed.

Lemma nodes_spec_witness :
  1 <= 3 /\ length (nodes 3) = 6%nat /\
  nth_error (nodes 3) 4 = Some "cos_2".
Proof.
  split; [lia |].
  destruct (nodes_spec 3) as (_ & Hlen & _ & Hcol & _); [lia |].
  split; [exact Hlen |].
  destruct (Hcol 4) as (f & k & Hfk & Hlab & _); [lia |].
  injection Hfk as -> ->. exact Hlab.
Defined.



(** ** The bounds of the features, in double arithmetic *)

Lemma nan_not_in_unit_interval (v : PrimFloat.float) :
  PrimFloat.is_nan v = true -> F64.in_unit_interval v = false.
Proof.
  unfold PrimFloat.is_nan, F64.in_unit_interval. intros H.
  apply negb_true_iff in H. rewrite FloatAxioms.eqb_spec in H.
  rewrite !FloatAxioms.leb_spec.
  destruct (FloatOps.Prim2SF v) as [s | s | | s mant e];
    try reflexivity.
  - now destruct s.
  - now destruct s.
  - exfalso. unfold SpecFloat.SFeqb, SpecFloat.SFcompare in H.
    rewrite Z.compare_refl, Pos.compare_cont_refl in H.
    destruct s; discriminate.
Qed.

Lemma F64_concatenate_axis1_map {A : Type}
    (f g : A -> list PrimFloat.float) (l : list A) :
  F64.concatenate_axis1 (map f l) (map g l) = map (fun a => f a ++ g a) l.
Proof.
  unfold F64.concatenate_axis1.
  induction l as [|a l IH]; simpl; [reflexivity | now f_equal].
Qed.

Lemma F64_generate_fourier_modes_rows (lm : F64.libm)
    (periods : list PrimFloat.float) (n_order : Z) :
  F64.generate_fourier_modes lm periods n_order
  = map (fun p =>
           map (fun k => F64.sin lm (F64.angle p k)) (Py.range 1 (n_order + 1))
           ++ map (fun k => F64.cos lm (F64.angle p k))
                  (Py.range 1 (n_order + 1)))
        periods.
Proof.
  unfold F64.generate_fourier_modes, F64.outer. rewrite !map_map.
  rewrite F64_concatenate_axis1_map.
  apply map_ext. intros p. now rewrite !map_map.
Qed.

Lemma F64_conforms_flat : F64.conforms F64.flat_libm.
Proof.
  split; intros x Hx; cbn [F64.sin F64.cos F64.flat_libm]; rewrite Hx;
    split; reflexivity.
Qed.

(** C5, as the code has it: in double arithmetic an element of the
    matrix lies between -1 and 1 exactly when its angle
    [2 * pi * periods[p] * k], as the code computes it, is finite; when
    the angle has overflowed to an infinity or is NaN, the element is
    NaN.  The sine and the cosine are those of any library that meets
    the contract of the C standard. *)
Theorem generate_fourier_modes_range (lm : F64.libm)
    (periods : list PrimFloat.float) (n_order : Z) (p c : nat)
    (v : PrimFloat.float) :
  F64.conforms lm ->
  1 <= n_order ->
  F64.entry (F64.generate_fourier_modes lm periods n_order) p c = Some v ->
  exists x k,
    nth_error periods p = Some x
    /\ 1 <= k <= n_order
    /\ (v = F64.sin lm (F64.angle x k) \/ v = F64.cos lm (F64.angle x k))
    /\ (PrimFloat.is_finite (F64.angle x k) = true ->
        F64.in_unit_interval v = true)
    /\ (PrimFloat.is_finite (F64.angle x k) = false ->
        PrimFloat.is_nan v = true /\ F64.in_unit_interval v = false).
Proof.
  intros [Hfin Hnan] Hn. unfold F64.entry.
  rewrite F64_generate_fourier_modes_rows, nth_error_map.
  destruct (nth_error periods p) as [x|]; [cbn [option_map] | discriminate].
  intros Hv. apply nth_error_In in Hv. exists x.
  apply in_app_or in Hv as [Hv | Hv];
    apply in_map_iff in Hv as (k & <- & Hk); apply PyFacts.range_In in Hk;
    exists k; (split; [reflexivity |]); (split; [lia |]).
  - split; [now left |]. split; intros Ha.
    + apply (Hfin _ Ha).
    + split; [apply (Hnan _ Ha) |].
      apply nan_not_in_unit_interval, (Hnan _ Ha).
  - split; [now right |]. split; intros Ha.
    + apply (Hfin _ Ha).
    + split; [apply (Hnan _ Ha) |].
      apply nan_not_in_unit_interval, (Hnan _ Ha).
Qed.

Lemma generate_fourier_modes_range_witness :
  exists x k,
    nth_error [F64.huge; F64.pi] 1 = Some x
    /\ 1 <= k <= 2
    /\ (F64.sin F64.flat_libm (F64.angle F64.pi 2)
        = F64.sin F64.flat_libm (F64.angle x k)
        \/ F64.sin F64.flat_libm (F64.angle F64.pi 2)
           = F64.cos F64.flat_libm (F64.angle x k))
    /\ (PrimFloat.is_finite (F64.angle x k) = true ->
        F64.in_unit_interval (F64.sin F64.flat_libm (F64.angle F64.pi 2))
        = true)
    /\ (PrimFloat.is_finite (F64.angle x k) = false ->
        PrimFloat.is_nan (F64.sin F64.flat_libm (F64.angle F64.pi 2)) = true
        /\ F64.in_unit_interval (F64.sin F64.flat_libm (F64.angle F64.pi 2))
           = false).
Proof.
  apply (generate_fourier_modes_range F64.flat_libm [F64.huge; F64.pi] 2 1 1).
  - exact F64_conforms_flat.
  - lia.
  - reflexivity.
Defined.

(** C5, as the claim has it, fails in double arithmetic: the input 1e308
    is finite, the angle [2 * pi * 1e308] overflows to infinity, and the
    sine of an infinity is NaN, which lies in no interval. *)
Lemma generate_fourier_modes_range_counterexample :
  PrimFloat.is_finite F64.huge = true
  /\ PrimFloat.is_infinity (F64.angle F64.huge 1) = true
  /\ ~ (forall (lm : F64.libm) (periods : list PrimFloat.float)
               (n_order : Z) (p c : nat) (v : PrimFloat.float),
           F64.conforms lm ->
           1 <= n_order ->
           Forall (fun x => PrimFloat.is_finite x = true) periods ->
           F64.entry (F64.generate_fourier_modes lm periods n_order) p c
           = Some v ->
           F64.in_unit_interval v = true).
Proof.
  split; [reflexivity |]. split; [reflexivity |]. intros H.
  specialize (H F64.flat_libm [F64.huge] 1 0%nat 0%nat PrimFloat.nan
                F64_conforms_flat).
  assert (E : F64.in_unit_interval PrimFloat.nan = true).
  { apply H; [lia | now repeat constructor | reflexivity]. }
  discriminate E.
Qed.

(** ** The constructor *)

Lemma positive_integer_dec (o : Py.obj) :
  {n | Py.as_int o = Some n /\ 1 <= n} + {~ Py.positive_integer o}.
Proof.
  destruct (Py.as_int o) as [n|] eqn:Ho.
  - destruct (Z_le_dec 1 n) as [Hn | Hn].
    + left. now exists n.
    + right. intros (z & Hz & Hz'). assert (z = n) by congruence. lia.
  - right. intros (z & Hz & _). congruence.
Qed.

Lemma init_valid_order c o prefix prior name n st :
  Py.as_int o = Some n -> 1 <= n ->
  FourierBase.init c o prefix prior name st
  = let prefix' := Py.str_or prefix (FourierBase.class_prefix c) in
    let prior' := match prior with
                  | Some p => p
                  | None => FourierBase.default_prior c
                  end in
    let name' := Py.str_or name (prefix' ++ "_beta")%string in
    if String.eqb name' prefix' then (inl NameCollision, st)
    else FourierBase.init_prior c n prefix' prior' name' st.
Proof.
  intros Ho Hn. unfold FourierBase.init. rewrite Ho.
  destruct (Z.ltb_spec n 1); [lia |]. cbv zeta.
  now destruct (String.eqb _ _).
Qed.

Lemma init_invalid c o prefix prior name st :
  ~ Py.positive_integer o ->
  FourierBase.init c o prefix prior name st = (inl InvalidOrder, st).
Proof.
  intros Ho. unfold FourierBase.init.
  destruct (Py.as_int o) as [n|] eqn:Hn; [| reflexivity].
  destruct (Z.ltb_spec n 1); [reflexivity |].
  exfalso. apply Ho. now exists n.
Qed.

Lemma existsb_eqb_In (s : string) (l : list string) :
  existsb (String.eqb s) l = true <-> In s l.
Proof.
  rewrite existsb_exists. split.
  - intros (x & Hx & E). apply String.eqb_eq in E. now subst.
  - intros H. exists s. split; [exact H | apply String.eqb_refl].
Qed.

Lemma init_prior_empty c n prefix prior name st :
  dims (objects st prior) = [] ->
  FourierBase.init_prior c n prefix prior name st
  = (inr (FourierBase.New c n prefix (next st) name),
     write (snd (alloc st (objects st prior))) (next st)
           (mkPrior (distribution (objects st prior))
                    (parameters (objects st prior)) [prefix])).
Proof.
  intros Hd. unfold FourierBase.init_prior, bind, get_dims, deepcopy, set_dims_str, ret, raise.
  rewrite Hd. simpl. rewrite !Nat.eqb_refl. simpl.
  now rewrite String.eqb_refl.
Qed.

Lemma init_prior_nonempty c n prefix prior name st :
  dims (objects st prior) <> [] ->
  FourierBase.init_prior c n prefix prior name st
  = if existsb (String.eqb prefix) (dims (objects st prior))
    then (inr (FourierBase.New c n prefix prior name), st)
    else (inl MissingAxis, st).
Proof.
  intros Hd. unfold FourierBase.init_prior, bind, get_dims, deepcopy, set_dims_str, ret, raise.
  destruct (dims (objects st prior)) as [|d ds] eqn:E; [congruence |].
  rewrite E. now destruct (existsb _ _).
Qed.

Lemma init_prior_not_invalid c n prefix prior name st :
  fst (FourierBase.init_prior c n prefix prior name st) <> inl InvalidOrder.
Proof.
  destruct (dims (objects st prior)) as [|d ds] eqn:E.
  - now rewrite init_prior_empty.
  - rewrite init_prior_nonempty by congruence.
    now destruct (existsb _ _).
Qed.

Lemma init_prior_not_collision c n prefix prior name st :
  fst (FourierBase.init_prior c n prefix prior name st) <> inl NameCollision.
Proof.
  destruct (dims (objects st prior)) as [|d ds] eqn:E.
  - now rewrite init_prior_empty.
  - rewrite init_prior_nonempty by congruence.
    now destruct (existsb _ _).
Qed.

Lemma append_length (a b : string) :
  String.length (a ++ b) = (String.length a + String.length b)%nat.
Proof. induction a as [|ch a IH]; simpl; [reflexivity | now rewrite IH]. Qed.

Lemma default_name_fresh (prefix : string) : (prefix ++ "_beta")%string <> prefix.
Proof.
  intros H. apply (f_equal String.length) in H.
  rewrite append_length in H. simpl in H. lia.
Qed.

Lemma str_or_some (s d : string) : s <> "" -> Py.str_or (Some s) d = s.
Proof. destruct s; [congruence | reflexivity]. Qed.

(** C7: the constructor raises the error of an invalid order exactly when
    [n_order] is not a positive integer (zero, a negative integer, a
    float such as 2.5); it does so before anything else, whatever the
    other arguments are: no instance is produced and the store is left
    as it was. *)
Theorem init_invalid_order
    (c : FourierBase.class) (o : Py.obj) (prefix : option string)
    (prior : option addr) (name : option string) (st : store) :
  (fst (FourierBase.init c o prefix prior name st) = inl InvalidOrder
   <-> ~ Py.positive_integer o)
  /\ (~ Py.positive_integer o ->
      FourierBase.init c o prefix prior name st = (inl InvalidOrder, st))
  /\ (forall z, z <= 0 -> ~ Py.positive_integer (Py.Int z))
  /\ (forall q, ~ Py.positive_integer (Py.Float q)).
Proof.
  split; [| split; [apply init_invalid | split]].
  - split.
    + intros H Ho. destruct Ho as (n & Hn & Hn').
      rewrite (init_valid_order _ _ _ _ _ n) in H by assumption.
      cbv zeta in H. destruct (String.eqb _ _); [discriminate |].
      now apply init_prior_not_invalid in H.
    + intros Ho. now rewrite init_invalid.
  - intros z Hz (n & Hn & Hn'). simpl in Hn. injection Hn as <-. lia.
  - intros q (n & Hn & _). discriminate.
Qed.

Lemma init_invalid_order_witness :
  FourierBase.init YearlyFourier (Py.Float (5 # 2)) None None None initial_store
  = (inl InvalidOrder, initial_store).
Proof.
  destruct (init_invalid_order YearlyFourier (Py.Float (5 # 2)) None None None
              initial_store) as (_ & H & _ & Hf).
  apply H, Hf.
Defined.

(** C8, as the code has it: a prior that declares axes, none of them the
    prefix, makes the constructor raise a [ValueError] and leave the
    store as it was; the error is the one of the missing axis whenever
    the order is a positive integer and the variable name differs from
    the prefix, the two checks that come first. *)
Theorem init_missing_axis
    (c : FourierBase.class) (o : Py.obj) (prefix : option string)
    (prior : option addr) (name : option string) (st : store) :
  let prefix' := Py.str_or prefix (FourierBase.class_prefix c) in
  let prior' := match prior with
                | Some p => p
                | None => FourierBase.default_prior c
                end in
  let name' := Py.str_or name (prefix' ++ "_beta")%string in
  dims (objects st prior') <> [] ->
  ~ In prefix' (dims (objects st prior')) ->
  (exists e, FourierBase.init c o prefix prior name st = (inl e, st))
  /\ (Py.positive_integer o -> name' <> prefix' ->
      FourierBase.init c o prefix prior name st = (inl MissingAxis, st)).
Proof.
  intros prefix' prior' name' Hd Hin.
  assert (Hp : forall n, FourierBase.init_prior c n prefix' prior' name' st
                         = (inl MissingAxis, st)).
  { intros n. rewrite init_prior_nonempty by assumption.
    destruct (existsb _ _) eqn:E; [| reflexivity].
    now apply existsb_eqb_In in E. }
  split.
  - destruct (positive_integer_dec o) as [(n & Hn & Hn') | Ho].
    + rewrite (init_valid_order _ _ _ _ _ n) by assumption. cbv zeta.
      fold prefix' prior' name'.
      destruct (String.eqb name' prefix'); eauto.
    + rewrite init_invalid by assumption. eauto.
  - intros (n & Hn & Hn') Hne.
    rewrite (init_valid_order _ _ _ _ _ n) by assumption. cbv zeta.
    fold prefix' prior' name'.
    destruct (String.eqb_spec name' prefix'); [contradiction | apply Hp].
Qed.

Lemma init_missing_axis_witness :
  FourierBase.init YearlyFourier (Py.Int 2) None (Some 1%nat) None
    (store_with (mkPrior "Normal" [] ["hierarchy"]))
  = (inl MissingAxis, store_with (mkPrior "Normal" [] ["hierarchy"])).
Proof.
  apply (init_missing_axis YearlyFourier (Py.Int 2) None (Some 1%nat) None
           (store_with (mkPrior "Normal" [] ["hierarchy"]))).
  - discriminate.
  - simpl. intros [H | []]. discriminate.
  - exists 2. split; [reflexivity | lia].
  - discriminate.
Defined.

(** C8, as the claim has it, fails on a prior that declares no axis at
    all: its axes do not include the prefix, yet the constructor returns
    an instance. *)
Lemma init_missing_axis_counterexample :
  ~ In "fourier" (dims (objects (store_with (mkPrior "Normal" [] [])) 1%nat))
  /\ fst (FourierBase.init YearlyFourier (Py.Int 2) None (Some 1%nat) None
            (store_with (mkPrior "Normal" [] [])))
     = inr (FourierBase.New YearlyFourier 2 "fourier" 2%nat "fourier_beta").
Proof. split; [intros [] | reflexivity]. Qed.

(** C9: a variable name given explicitly and equal to the prefix makes
    the constructor raise the error of the name collision (for a valid
    order, which is checked first); without a name the variable is named
    prefix + "_beta", which differs from the prefix, so the constructor
    then never raises that error. *)
Theorem init_name_collision
    (c : FourierBase.class) (o : Py.obj) (prefix : option string)
    (prior : option addr) (st : store) :
  let prefix' := Py.str_or prefix (FourierBase.class_prefix c) in
  (forall s : string,
      s <> "" -> s = prefix' -> Py.positive_integer o ->
      FourierBase.init c o prefix prior (Some s) st = (inl NameCollision, st))
  /\ Py.str_or None (prefix' ++ "_beta")%string = (prefix' ++ "_beta")%string
  /\ (prefix' ++ "_beta")%string <> prefix'
  /\ fst (FourierBase.init c o prefix prior None st) <> inl NameCollision
  /\ (forall self st',
         FourierBase.init c o prefix prior None st = (inr self, st') ->
         FourierBase.variable_name self = (prefix' ++ "_beta")%string).
Proof.
  intros prefix'. split; [| split; [reflexivity | split; [| split]]].
  - intros s Hs Heq (n & Hn & Hn').
    rewrite (init_valid_order _ _ _ _ _ n) by assumption. cbv zeta.
    fold prefix'. rewrite str_or_some by assumption.
    subst s. now rewrite String.eqb_refl.
  - apply default_name_fresh.
  - destruct (positive_integer_dec o) as [(n & Hn & Hn') | Ho].
    + rewrite (init_valid_order _ _ _ _ _ n) by assumption. cbv zeta.
      fold prefix'. simpl Py.str_or at 1.
      destruct (String.eqb_spec (prefix' ++ "_beta")%string prefix') as [E|_].
      * now apply default_name_fresh in E.
      * apply init_prior_not_collision.
    + now rewrite init_invalid.
  - intros self st'.
    destruct (positive_integer_dec o) as [(n & Hn & Hn') | Ho].
    + rewrite (init_valid_order _ _ _ _ _ n) by assumption. cbv zeta.
      fold prefix'. simpl Py.str_or at 1.
      destruct (String.eqb_spec (prefix' ++ "_beta")%string prefix') as [E|_];
        [discriminate |].
      set (p := match prior with Some p => p | None => _ end).
      destruct (dims (objects st p)) as [|d ds] eqn:E.
      * rewrite init_prior_empty by assumption. now intros [= <- _].
      * rewrite init_prior_nonempty by congruence.
        destruct (existsb _ _); [| discriminate]. now intros [= <- _].
    + now rewrite init_invalid.
Qed.

Lemma init_name_collision_witness :
  FourierBase.init YearlyFourier (Py.Int 2) (Some "variable_name") None
    (Some "variable_name") initial_store
  = (inl NameCollision, initial_store).
Proof.
  destruct (init_name_collision YearlyFourier (Py.Int 2) (Some "variable_name")
              None initial_store) as (H & _).
  apply H; [discriminate | reflexivity |].
  exists 2. split; [reflexivity | lia].
Defined.

(** C10: with a prior that declares no axes (and arguments that pass the
    two first checks) the constructor raises nothing; the instance holds
    a new object, a copy of the prior whose axes are the prefix alone,
    and every object that existed before, the prior of the caller among
    them, is unchanged: its axes are still empty. *)
Theorem init_prior_without_dims
    (c : FourierBase.class) (o : Py.obj) (prefix : option string)
    (prior : option addr) (name : option string) (st : store) :
  let prefix' := Py.str_or prefix (FourierBase.class_prefix c) in
  let prior' := match prior with
                | Some p => p
                | None => FourierBase.default_prior c
                end in
  let name' := Py.str_or name (prefix' ++ "_beta")%string in
  Py.positive_integer o ->
  name' <> prefix' ->
  (prior' < next st)%nat ->
  dims (objects st prior') = [] ->
  exists self st',
    FourierBase.init c o prefix prior name st = (inr self, st')
    /\ FourierBase.prefix self = prefix'
    /\ FourierBase.prior self = next st
    /\ FourierBase.prior self <> prior'
    /\ objects st' (FourierBase.prior self)
       = mkPrior (distribution (objects st prior'))
                 (parameters (objects st prior')) [prefix']
    /\ (forall a, (a < next st)%nat -> objects st' a = objects st a)
    /\ dims (objects st' prior') = [].
Proof.
  intros prefix' prior' name' (n & Hn & Hn') Hne Hlt Hd.
  rewrite (init_valid_order _ _ _ _ _ n) by assumption. cbv zeta.
  fold prefix' prior' name'.
  destruct (String.eqb_spec name' prefix'); [contradiction |].
  rewrite init_prior_empty by assumption.
  eexists _, _. split; [reflexivity |]. simpl.
  assert (Hframe : forall a, (a < next st)%nat ->
            (if Nat.eqb a (next st)
             then mkPrior (distribution (objects st prior'))
                          (parameters (objects st prior')) [prefix']
             else if Nat.eqb a (next st) then objects st prior'
                  else objects st a) = objects st a).
  { intros a Ha. destruct (Nat.eqb_spec a (next st)); [lia | reflexivity]. }
  repeat split.
  - lia.
  - now rewrite Nat.eqb_refl.
  - exact Hframe.
  - now rewrite Hframe.
Qed.

Lemma init_prior_without_dims_witness :
  exists self st',
    FourierBase.init YearlyFourier (Py.Int 2) None (Some 1%nat) None
      (store_with (mkPrior "Normal" [] [])) = (inr self, st')
    /\ dims (objects st' (FourierBase.prior self)) = ["fourier"]
    /\ dims (objects st' 1%nat) = [].
Proof.
  destruct (init_prior_without_dims YearlyFourier (Py.Int 2) None (Some 1%nat)
              None (store_with (mkPrior "Normal" [] [])))
    as (self & st' & H & _ & _ & _ & Hc & _ & Ho).
  - exists 2. split; [reflexivity | lia].
  - discriminate.
  - simpl. lia.
  - reflexivity.
  - exists self, st'. split; [exact H |]. split; [| exact Ho].
    now rewrite Hc.
Defined.

(** ** Named axes and the contraction *)

Lemma index_of_In (d : string) (l : list string) :
  In d l -> exists k, index_of d l = Some k /\ nth_error l k = Some d.
Proof.
  induction l as [|x l IH]; simpl; [intros [] |].
  intros H. destruct (String.eqb_spec x d) as [->|Hne].
  - now exists 0%nat.
  - destruct H as [H | H]; [contradiction |].
    destruct (IH H) as (k & Hk & Hn). exists (S k). now rewrite Hk.
Qed.

Lemma index_of_notin (d : string) (l : list string) :
  ~ In d l -> index_of d l = None.
Proof.
  induction l as [|x l IH]; simpl; [reflexivity |].
  intros H. destruct (String.eqb_spec x d) as [->|Hne].
  - exfalso. apply H. now left.
  - rewrite IH; [reflexivity |]. intros Hd. apply H. now right.
Qed.

Lemma index_of_self (l : list string) :
  NoDup l -> map (fun d => index_of d l) l = map Some (seq 0 (length l)).
Proof.
  induction 1 as [|x l Hx Hl IH]; [reflexivity |].
  cbn [map length seq index_of]. rewrite String.eqb_refl. f_equal.
  rewrite <- seq_shift, map_map, <- (map_map Some (option_map S)), <- IH, map_map.
  apply map_ext_in. intros d Hd.
  destruct (String.eqb_spec x d) as [->|_]; [contradiction | reflexivity].
Qed.

Lemma position_seq (j a m : nat) :
  (a <= j < a + m)%nat -> position j (map Some (seq a m)) = (j - a)%nat.
Proof.
  revert a. induction m as [|m IH]; intros a Hj; [lia |].
  cbn [seq map position]. destruct (Nat.eqb_spec a j) as [->|Hne].
  - lia.
  - rewrite IH by lia. lia.
Qed.

Lemma map_nth_seq {A : Type} (l : list A) (d : A) :
  map (fun j => nth j l d) (seq 0 (length l)) = l.
Proof.
  induction l as [|x l IH]; [reflexivity |].
  cbn [length seq map nth]. f_equal.
  now rewrite <- seq_shift, map_map.
Qed.

Lemma sum_upto_ext (n : nat) (f g : nat -> R) :
  (forall j, (j < n)%nat -> f j = g j) -> sum_upto n f = sum_upto n g.
Proof.
  induction n as [|n IH]; intros H; simpl; [reflexivity |].
  rewrite IH by (intros j Hj; apply H; lia). now rewrite H by lia.
Qed.

Lemma clip_in_range (s idx : list nat) : in_range s idx -> clip s idx = idx.
Proof.
  unfold in_range, clip. induction 1 as [|i n idx s Hi _ IH]; [reflexivity |].
  cbn [combine map fst snd]. rewrite IH. f_equal.
  destruct (Nat.eqb_spec n 1); [lia | reflexivity].
Qed.

Lemma clip_nth (s idx : list nat) (i : nat) :
  (i < length s)%nat -> (i < length idx)%nat ->
  (nth i idx 0 < nth i s 0)%nat ->
  nth i (clip s idx) 0%nat = nth i idx 0%nat.
Proof.
  unfold clip. revert idx i.
  induction s as [|n s IH]; intros [|x idx] [|i]; simpl; try lia.
  - intros _ _ H. destruct (Nat.eqb_spec n 1); [lia | reflexivity].
  - intros Hs Hi H. apply IH; lia.
Qed.

Lemma insert_at_length (k j : nat) (idx : list nat) :
  (k <= length idx)%nat -> length (insert_at k j idx) = S (length idx).
Proof.
  revert idx. induction k as [|k IH]; intros [|i idx]; simpl; try lia.
  intros H. rewrite IH; lia.
Qed.

Lemma insert_at_nth (k j : nat) (idx : list nat) :
  (k <= length idx)%nat -> nth k (insert_at k j idx) 0%nat = j.
Proof.
  revert idx. induction k as [|k IH]; intros [|i idx]; simpl; try lia.
  intros H. apply IH. lia.
Qed.

Lemma remove_at_length {A : Type} (k : nat) (l : list A) :
  (k < length l)%nat -> S (length (remove_at k l)) = length l.
Proof.
  revert l. induction k as [|k IH]; intros [|x l]; simpl; try lia.
  intros H. rewrite IH; lia.
Qed.

Lemma insert_at_in_range (k j : nat) (s idx : list nat) :
  (k < length s)%nat -> (j < nth k s 0)%nat ->
  in_range (remove_at k s) idx -> in_range s (insert_at k j idx).
Proof.
  unfold in_range. revert s idx.
  induction k as [|k IH]; intros [|n s] idx; simpl; try lia.
  - intros _ Hj H. now constructor.
  - intros Hk Hj H. inversion H as [|i m idx' s' Hi Hr]; subst.
    constructor; [exact Hi |]. apply IH; [lia | exact Hj | exact Hr].
Qed.

Lemma in_range_length (s idx : list nat) :
  in_range s idx -> length idx = length s.
Proof. unfold in_range. induction 1; simpl; congruence. Qed.

(** Without repetition, removing the position of a name removes the name. *)
Lemma remove_at_index_of (d : string) (l : list string) (k : nat) :
  NoDup l -> index_of d l = Some k ->
  remove_at k l = filter (fun x => negb (String.eqb x d)) l.
Proof.
  intros Hl. revert k. induction Hl as [|x l Hx Hl IH]; intros k; simpl;
    [discriminate |].
  destruct (String.eqb_spec x d) as [->|Hne]; simpl.
  - intros [= <-]. symmetry. apply forallb_filter_id, forallb_forall.
    intros y Hy. destruct (String.eqb_spec y d) as [->|_];
      [contradiction | reflexivity].
  - destruct (index_of d l) as [k'|]; [| discriminate].
    intros [= <-]. simpl. f_equal. now apply IH.
Qed.

Lemma broadcast_features (pfx : string) (cols : nat) (D : list string)
    (sizes : list nat) :
  Forall2 (fun d n => d = pfx -> n = cols) D sizes ->
  map (fun ab => if Nat.eqb (fst ab) 1 then snd ab else fst ab)
      (combine (map (fun d => if String.eqb pfx d then cols else 1%nat) D) sizes)
  = sizes.
Proof.
  induction 1 as [|d n D sizes Hd _ IH]; [reflexivity |].
  cbn [map combine fst snd]. rewrite IH. f_equal.
  destruct (String.eqb_spec pfx d) as [E|_]; [| reflexivity].
  rewrite (Hd (eq_sym E)). now destruct (Nat.eqb cols 1).
Qed.

Lemma placed_absent (pfx : string) (D : list string) :
  ~ In pfx D ->
  placed (map (fun d => if String.eqb pfx d then Some 1%nat else None) D) = [].
Proof.
  induction D as [|x D IH]; [reflexivity |]. intros H. cbn [map placed flat_map].
  destruct (String.eqb_spec pfx x) as [->|_]; [exfalso; apply H; now left |].
  cbn [app]. apply IH. intros Hd. apply H. now right.
Qed.

Lemma placed_prefix (pfx : string) (D : list string) :
  NoDup D ->
  placed (map (fun d => if String.eqb pfx d then Some 1%nat else None) D) = []
  \/ placed (map (fun d => if String.eqb pfx d then Some 1%nat else None) D)
     = [1%nat].
Proof.
  induction 1 as [|x D Hx HD IH]; [now left |]. cbn [map placed flat_map].
  fold (placed (map (fun d => if String.eqb pfx d then Some 1%nat else None) D)).
  destruct (String.eqb_spec pfx x) as [->|_]; [| exact IH].
  right. now rewrite placed_absent.
Qed.

Lemma placed_seq (a n : nat) : placed (map Some (seq a n)) = seq a n.
Proof.
  revert a. induction n as [|n IH]; intros a; [reflexivity |].
  cbn [seq map placed flat_map app].
  fold (placed (map Some (seq (S a) n))). now rewrite IH.
Qed.

Lemma has_repeat_seq (a n : nat) : has_repeat (seq a n) = false.
Proof.
  revert a. induction n as [|n IH]; intros a; [reflexivity |].
  cbn [seq has_repeat]. rewrite IH, orb_false_r.
  apply not_true_is_false. intros H. apply existsb_exists in H as (x & Hx & E).
  apply in_seq in Hx. apply Nat.eqb_eq in E. lia.
Qed.

Section Contraction.

Variables (L cols : nat) (pfx : string) (D : list string) (sizes : list nat).
Variable (k : nat).
Variable (m : matrix) (values : list nat -> R).

Hypothesis HD : NoDup D.
Hypothesis Hdummy : ~ In FourierBase.DUMMY_DIM D.
Hypothesis Hk : index_of pfx D = Some k.
Hypothesis Hlen : length sizes = length D.
Hypothesis Hcols : nth k sizes 0%nat = cols.
Hypothesis Hm : length m = L.
Hypothesis Hpfx : Forall2 (fun d n => d = pfx -> n = cols) D sizes.

Let F : tensor := as_tensor cols m.
Let beta : tensor := Tensor sizes values.
Let result_dims : list string := FourierBase.DUMMY_DIM :: D.
Let A : tensor :=
  permute (map (fun d => index_of d [FourierBase.DUMMY_DIM; pfx]) result_dims)
          F.
Let B : tensor := permute (map (fun d => index_of d D) result_dims) beta.

Lemma pattern_features :
  map (fun d => index_of d [FourierBase.DUMMY_DIM; pfx]) result_dims
  = Some 0%nat
    :: map (fun d => if String.eqb pfx d then Some 1%nat else None) D.
Proof.
  unfold result_dims. cbn [map index_of]. rewrite String.eqb_refl. f_equal.
  apply map_ext_in. intros d Hd.
  destruct (String.eqb_spec FourierBase.DUMMY_DIM d) as [E|_].
  - exfalso. apply Hdummy. now rewrite E.
  - now destruct (String.eqb pfx d).
Qed.

Lemma pattern_weights :
  map (fun d => index_of d D) result_dims
  = None :: map Some (seq 0 (length D)).
Proof.
  unfold result_dims. cbn [map].
  now rewrite (index_of_notin _ _ Hdummy), index_of_self.
Qed.

Lemma k_lt : (k < length D)%nat.
Proof.
  clear - Hk. revert k Hk. induction D as [|x l IH]; simpl; [discriminate |].
  intros k. destruct (String.eqb x pfx); [intros [= <-]; lia |].
  destruct (index_of pfx l) as [k'|]; [| discriminate].
  intros [= <-]. specialize (IH k' eq_refl). lia.
Qed.

Lemma position_prefix :
  position 1 (map (fun d => if String.eqb pfx d then Some 1%nat else None) D)
  = k.
Proof.
  clear - Hk. revert k Hk. induction D as [|x l IH]; simpl; [discriminate |].
  intros k. rewrite (String.eqb_sym pfx x).
  destruct (String.eqb x pfx); [now intros [= <-] |].
  destruct (index_of pfx l) as [k'|]; [| discriminate].
  intros [= <-]. now rewrite (IH k' eq_refl).
Qed.

Lemma nth_prefix_size :
  nth k (map (fun d => if String.eqb pfx d then cols else 1%nat) D) 0%nat
  = cols.
Proof.
  clear - Hk. revert k Hk. induction D as [|x l IH]; simpl; [discriminate |].
  intros k. rewrite (String.eqb_sym pfx x).
  destruct (String.eqb x pfx); [now intros [= <-] |].
  destruct (index_of pfx l) as [k'|]; [| discriminate].
  intros [= <-]. now apply IH.
Qed.

Lemma shape_features :
  shape A = L :: map (fun d => if String.eqb pfx d then cols else 1%nat) D.
Proof.
  unfold A, permute. cbn [shape].
  rewrite pattern_features. cbn [map]. unfold F. cbn [as_tensor shape nth].
  rewrite Hm. f_equal. rewrite map_map. apply map_ext. intros d.
  now destruct (String.eqb pfx d).
Qed.

Lemma shape_weights : shape B = 1%nat :: sizes.
Proof.
  unfold B, permute. cbn [shape].
  rewrite pattern_weights. cbn [map]. unfold beta. cbn [shape]. f_equal.
  rewrite map_map, <- Hlen. apply map_nth_seq.
Qed.

Lemma shape_product : shape (mul A B) = L :: sizes.
Proof.
  unfold mul. cbn [shape]. rewrite shape_features, shape_weights.
  unfold broadcast_shape. cbn [combine map fst snd]. f_equal.
  - destruct (Nat.eqb_spec L 1) as [E|_]; [now rewrite E | reflexivity].
  - now apply broadcast_features.
Qed.

Lemma item_features (i : list nat) :
  item A i = nth (nth (S k) i 0%nat) (nth (nth 0 i 0%nat) m []) 0%R.
Proof.
  unfold A, permute. cbn [item].
  rewrite pattern_features. unfold F.
  cbn [as_tensor shape item length seq map position Nat.eqb nth].
  now rewrite position_prefix.
Qed.

Lemma item_weights (i : list nat) :
  item B i = values (map (fun ax => nth (S ax) i 0%nat) (seq 0 (length sizes))).
Proof.
  unfold B, permute. cbn [item].
  rewrite pattern_weights. unfold beta. cbn [shape item]. f_equal.
  apply map_ext_in. intros ax Hax. apply in_seq in Hax.
  cbn [position]. rewrite position_seq by lia. f_equal. lia.
Qed.

Lemma item_product (p j : nat) (idx : list nat) :
  (p < L)%nat -> (j < cols)%nat -> in_range (remove_at k sizes) idx ->
  item (mul A B) (p :: insert_at k j idx)
  = (nth j (nth p m []) 0 * values (insert_at k j idx))%R.
Proof.
  intros Hp Hj Hidx. pose proof k_lt as Hlt.
  assert (Hk' : (k <= length idx)%nat).
  { apply in_range_length in Hidx.
    pose proof (remove_at_length k sizes). lia. }
  assert (Hin : in_range sizes (insert_at k j idx)).
  { apply insert_at_in_range; [lia | now rewrite Hcols | exact Hidx]. }
  unfold mul. cbn [item]. rewrite shape_features, shape_weights.
  rewrite item_features, item_weights. f_equal.
  - unfold clip at 2. cbn [combine map fst snd nth].
    destruct (Nat.eqb_spec L 1); [replace p with 0%nat by lia |];
      (unfold clip; cbn [combine map fst snd nth]; fold (clip
         (map (fun d => if String.eqb pfx d then cols else 1%nat) D)
         (insert_at k j idx));
       rewrite clip_nth;
       [ now rewrite insert_at_nth
       | rewrite length_map; lia
       | rewrite insert_at_length; lia
       | now rewrite nth_prefix_size, insert_at_nth ]).
  - unfold clip. cbn [combine map fst snd Nat.eqb].
    fold (clip sizes (insert_at k j idx)). rewrite clip_in_range by exact Hin.
    f_equal. cbn [nth].
    rewrite <- (in_range_length _ _ Hin). apply map_nth_seq.
Qed.

Lemma handler_features :
  create_dim_handler result_dims F [FourierBase.DUMMY_DIM; pfx] = Some A.
Proof.
  unfold create_dim_handler, dimshuffle. fold A.
  rewrite pattern_features. cbn [placed flat_map app has_repeat].
  fold (placed (map (fun d => if String.eqb pfx d then Some 1%nat else None) D)).
  destruct (placed_prefix pfx D HD) as [-> | ->]; reflexivity.
Qed.

Lemma handler_weights : create_dim_handler result_dims beta D = Some B.
Proof.
  unfold create_dim_handler, dimshuffle. fold B.
  rewrite pattern_weights. cbn [placed flat_map app].
  fold (placed (map Some (seq 0 (length D)))).
  now rewrite placed_seq, has_repeat_seq.
Qed.

End Contraction.


Lemma Forall2_nth_error {A B : Type} (P : A -> B -> Prop)
    (l1 : list A) (l2 : list B) (i : nat) (a : A) :
  Forall2 P l1 l2 -> nth_error l1 i = Some a ->
  exists b, nth_error l2 i = Some b /\ P a b.
Proof.
  intros H. revert i. induction H as [|x y l1 l2 Hxy _ IH]; intros [|i]; simpl;
    try discriminate.
  - intros [= <-]. now exists y.
  - apply IH.
Qed.

Lemma insert_at_remove_at (k : nat) (full : list nat) :
  (k < length full)%nat ->
  insert_at k (nth k full 0%nat) (remove_at k full) = full.
Proof.
  revert full. induction k as [|k IH]; intros [|i full]; simpl; try lia.
  - reflexivity.
  - intros H. destruct full as [|i' full]; [simpl in H; lia |].
    f_equal. apply (IH (i' :: full)). simpl in *. lia.
Qed.

Lemma in_range_remove_at (k : nat) (s full : list nat) :
  in_range s full -> in_range (remove_at k s) (remove_at k full).
Proof.
  unfold in_range. intros H. revert k.
  induction H as [|i n full s Hi Ht IH]; intros [|k]; simpl;
    try constructor; auto.
Qed.

Lemma in_range_nth (s full : list nat) (k : nat) :
  in_range s full -> (k < length s)%nat -> (nth k full 0 < nth k s 0)%nat.
Proof.
  unfold in_range. intros H. revert k.
  induction H as [|i n full s Hi _ IH]; intros [|k]; simpl; try lia.
  intros Hk. apply IH. lia.
Qed.

Lemma index_of_nth (d : string) (l : list string) (k : nat) :
  index_of d l = Some k -> nth_error l k = Some d.
Proof.
  revert k. induction l as [|x l IH]; simpl; [discriminate |].
  intros k. destruct (String.eqb_spec x d) as [->|_]; [now intros [= <-] |].
  destruct (index_of d l) as [k'|]; [| discriminate].
  intros [= <-]. now apply IH.
Qed.

Lemma Forall2_vacuous (pfx : string) (cols : nat) (D : list string)
    (sizes : list nat) :
  ~ In pfx D -> length sizes = length D ->
  Forall2 (fun d n => d = pfx -> n = cols) D sizes.
Proof.
  revert sizes. induction D as [|x D IH]; intros [|s ss] Hin Hlen;
    try discriminate; constructor.
  - intros ->. exfalso. apply Hin. now left.
  - apply IH; [| now injection Hlen]. intros H. apply Hin. now right.
Qed.

Lemma prefix_axis_Forall2 (pfx : string) (cols : nat) (D : list string)
    (sizes : list nat) (k : nat) :
  NoDup D -> index_of pfx D = Some k ->
  length sizes = length D -> nth k sizes 0%nat = cols ->
  Forall2 (fun d n => d = pfx -> n = cols) D sizes.
Proof.
  intros HD. revert sizes k.
  induction HD as [|x D Hx HD IH]; intros [|s ss] k Hk Hlen Hc;
    try discriminate.
  simpl in Hk. destruct (String.eqb_spec x pfx) as [->|Hne].
  - injection Hk as <-. simpl in Hc. constructor; [now intros _ |].
    apply Forall2_vacuous; [exact Hx | now injection Hlen].
  - destruct (index_of pfx D) as [k'|] eqn:E; [| discriminate].
    injection Hk as <-. constructor; [intros ->; contradiction |].
    apply (IH ss k'); [reflexivity | now injection Hlen | exact Hc].
Qed.

(** What [apply] computes once its calls into the backend have
    succeeded: the product of the aligned features and weights, handed
    to the callback, and its sum over the prefix axis. *)
Lemma apply_contracts (B : backend) (st : store) (m m1 m2 : model B)
    (self : FourierBase.t) (beta : tensor) (dayofyear : list R) (k : nat) :
  let D := dims (objects st (FourierBase.prior self)) in
  let n := FourierBase.n_order self in
  let pfx := FourierBase.prefix self in
  let q := FourierBase.days_in_period (FourierBase.cls self) in
  let periods := map (fun d => (d / Q2R q)%R) dayofyear in
  NoDup D ->
  ~ In FourierBase.DUMMY_DIM D ->
  index_of pfx D = Some k ->
  add_coord B pfx (Labels (nodes n)) m = Some m1 ->
  create_variable B (objects st (FourierBase.prior self))
    (FourierBase.variable_name self) m1 = Some (beta, m2) ->
  length (shape beta) = length D ->
  nth k (shape beta) 0%nat = length (nodes n) ->
  exists result,
    (forall cb,
        FourierBase.apply B st (Some m) self dayofyear cb
        = match cb with
          | None => Some (sum_axis (k + 1) result, m2)
          | Some callback =>
              match callback result m2 with
              | None => None
              | Some m3 => Some (sum_axis (k + 1) result, m3)
              end
          end)
    /\ shape result = length dayofyear :: shape beta
    /\ (forall p full,
           (p < length dayofyear)%nat ->
           in_range (shape beta) full ->
           item result (p :: full)
           = (nth (nth k full 0%nat)
                  (nth p (generate_fourier_modes periods n) []) 0
              * item beta full)%R)
    /\ shape (sum_axis (k + 1) result)
       = length dayofyear :: remove_at k (shape beta)
    /\ (forall p idx,
           (p < length dayofyear)%nat ->
           in_range (remove_at k (shape beta)) idx ->
           item (sum_axis (k + 1) result) (p :: idx)
           = sum_upto (Z.to_nat (2 * n))
               (fun j => (nth j (nth p (generate_fourier_modes periods n) []) 0
                          * item beta (insert_at k j idx))%R)).
Proof.
  intros D n pfx q periods HD Hdummy Hk Hadd Hcreate Hlen Hcols.
  destruct beta as [sizes values]. cbn [shape item] in *.
  pose proof (prefix_axis_Forall2 _ _ _ _ _ HD Hk Hlen Hcols) as Hpfx.
  assert (Hm : length (generate_fourier_modes periods n) = length dayofyear).
  { rewrite generate_fourier_modes_rows. unfold periods.
    now rewrite !length_map. }
  set (F := as_tensor (length (nodes n)) (generate_fourier_modes periods n)).
  set (result :=
         mul (permute (map (fun d => index_of d [FourierBase.DUMMY_DIM; pfx])
                           (FourierBase.DUMMY_DIM :: D)) F)
             (permute (map (fun d => index_of d D) (FourierBase.DUMMY_DIM :: D))
                      (Tensor sizes values))).
  assert (Hshape : shape result = length dayofyear :: sizes).
  { unfold result, F.
    now rewrite shape_product with (L := length dayofyear). }
  exists result. split; [| split; [exact Hshape | split; [| split]]].
  - intros cb. unfold FourierBase.apply. fold D n pfx q periods.
    rewrite Hadd, Hcreate, Hk. cbv zeta. fold F.
    unfold F at 1. rewrite (handler_features _ _ _ _ HD Hdummy).
    rewrite (handler_weights _ _ _ HD Hdummy). fold F. fold result.
    reflexivity.
  - intros p full Hp Hfull.
    assert (Hkl : (k < length full)%nat).
    { rewrite (in_range_length _ _ Hfull), Hlen.
      apply nth_error_Some. rewrite (index_of_nth _ _ _ Hk). discriminate. }
    rewrite <- (insert_at_remove_at k full Hkl) at 1 3.
    unfold result, F.
    rewrite item_product with (L := length dayofyear); try assumption.
    + reflexivity.
    + rewrite <- Hcols. apply in_range_nth; [exact Hfull |].
      now rewrite <- (in_range_length _ _ Hfull).
    + now apply in_range_remove_at.
  - rewrite Nat.add_1_r. cbn [sum_axis shape]. now rewrite Hshape.
  - intros p idx Hp Hidx. rewrite Nat.add_1_r. cbn [sum_axis item].
    rewrite Hshape. cbn [nth]. rewrite Hcols, <- (nodes_length n).
    apply sum_upto_ext. intros j Hj. cbn [insert_at].
    unfold result, F.
    now rewrite item_product with (L := length dayofyear).
Qed.

(** The instances the constructor returns have the prefix among the axes
    of their prior, and an order of at least one. *)
Lemma init_invariant c o prefix prior name st self st' :
  FourierBase.init c o prefix prior name st = (inr self, st') ->
  In (FourierBase.prefix self) (dims (objects st' (FourierBase.prior self)))
  /\ 1 <= FourierBase.n_order self.
Proof.
  destruct (positive_integer_dec o) as [(n & Hn & Hn') | Ho];
    [| now rewrite init_invalid].
  rewrite (init_valid_order _ _ _ _ _ n) by assumption. cbv zeta.
  destruct (String.eqb _ _); [discriminate |].
  set (pfx := Py.str_or prefix _). set (p := match prior with Some _ => _ | None => _ end).
  destruct (dims (objects st p)) as [|d ds] eqn:E.
  - rewrite init_prior_empty by assumption. intros [= <- <-]. simpl.
    rewrite Nat.eqb_refl. simpl. auto.
  - rewrite init_prior_nonempty by congruence.
    destruct (existsb _ _) eqn:Hex; [| discriminate].
    intros [= <- <-]. simpl. split; [| exact Hn'].
    now apply existsb_eqb_In.
Qed.

(** C2: for an instance whose prior has the prefix among its axes,
    [apply] divides the days by [days_in_period], generates the feature
    matrix, aligns the features and the weights by axis name onto the
    axes [(DATE, *prior.dims)], multiplies them and sums over the prefix
    axis alone.  The calls into the backend having succeeded with a
    weight tensor that has one axis per declared axis, the prefix axis as
    long as the labels, the result has the sample axis first, then the
    axes of the weights other than the prefix, in their order; its entry
    at the sample [p] and the index [idx] of the other axes is the sum
    over the harmonics of feature times weight. *)
Theorem apply_spec (B : backend) (st : store) (m m1 m2 : model B)
    (self : FourierBase.t) (beta : tensor) (dayofyear : list R) :
  let D := dims (objects st (FourierBase.prior self)) in
  let n := FourierBase.n_order self in
  let pfx := FourierBase.prefix self in
  let q := FourierBase.days_in_period (FourierBase.cls self) in
  let periods := map (fun d => (d / Q2R q)%R) dayofyear in
  In pfx D ->
  NoDup D ->
  ~ In FourierBase.DUMMY_DIM D ->
  add_coord B pfx (Labels (nodes n)) m = Some m1 ->
  create_variable B (objects st (FourierBase.prior self))
    (FourierBase.variable_name self) m1 = Some (beta, m2) ->
  length (shape beta) = length D ->
  (forall k, index_of pfx D = Some k ->
             nth k (shape beta) 0%nat = length (nodes n)) ->
  exists k result,
    index_of pfx D = Some k
    /\ FourierBase.apply B st (Some m) self dayofyear None
       = Some (result, m2)
    /\ remove_at k D = filter (fun d => negb (String.eqb d pfx)) D
    /\ shape result = length dayofyear :: remove_at k (shape beta)
    /\ forall p idx,
        (p < length dayofyear)%nat ->
        in_range (remove_at k (shape beta)) idx ->
        item result (p :: idx)
        = sum_upto (Z.to_nat (2 * n))
            (fun j => (nth j (nth p (generate_fourier_modes periods n) []) 0
                       * item beta (insert_at k j idx))%R).
Proof.
  intros D n pfx q periods Hin HD Hdummy Hadd Hcreate Hlen Hcols.
  destruct (index_of_In pfx D Hin) as (k & Hk & _).
  destruct (apply_contracts B st m m1 m2 self beta dayofyear k
              HD Hdummy Hk Hadd Hcreate Hlen (Hcols k Hk))
    as (result & Hr & _ & _ & Hs & Hv).
  exists k, (sum_axis (k + 1) result).
  split; [exact Hk |]. split; [exact (Hr None) |].
  split; [now apply remove_at_index_of |]. split; [exact Hs | exact Hv].
Qed.

Lemma apply_spec_witness :
  exists k result,
    index_of "fourier" ["hierarchy"; "fourier"] = Some k
    /\ FourierBase.apply (coords_backend (fun _ => 1%R))
         (store_with (mkPrior "Normal" [] ["hierarchy"; "fourier"]))
         (Some [("hierarchy", Labels ["a"; "b"; "c"])]) yearly_2
         [0%R; 7%R] None
       = Some (result, [("hierarchy", Labels ["a"; "b"; "c"]);
                        ("fourier", Labels (nodes 2))])
    /\ shape result = [2%nat; 3%nat].
Proof.
  destruct (apply_spec (coords_backend (fun _ => 1%R))
              (store_with (mkPrior "Normal" [] ["hierarchy"; "fourier"]))
              [("hierarchy", Labels ["a"; "b"; "c"])]
              [("hierarchy", Labels ["a"; "b"; "c"]);
               ("fourier", Labels (nodes 2))]
              [("hierarchy", Labels ["a"; "b"; "c"]);
               ("fourier", Labels (nodes 2))]
              yearly_2 (Tensor [3%nat; 4%nat] (fun _ => 1%R)) [0%R; 7%R])
    as (k & result & Hk & Hr & _ & Hs & _).
  - simpl. auto.
  - simpl. repeat constructor; simpl; intuition discriminate.
  - simpl. intuition discriminate.
  - reflexivity.
  - reflexivity.
  - reflexivity.
  - simpl. intros k [= <-]. reflexivity.
  - exists k, result. split; [exact Hk |]. split; [exact Hr |].
    rewrite Hs. simpl in Hk. injection Hk as <-. reflexivity.
Defined.

Lemma index_of_Some_In (d : string) (l : list string) (k : nat) :
  index_of d l = Some k -> In d l.
Proof. intros H. eapply nth_error_In, index_of_nth, H. Qed.

Lemma placed_In (pat : list (option nat)) (i : nat) :
  In (Some i) pat -> In i (placed pat).
Proof.
  unfold placed. intros H. apply in_flat_map. exists (Some i).
  split; [exact H | now left].
Qed.

Lemma has_repeat_head (i : nat) (l : list nat) :
  In i l -> has_repeat (i :: l) = true.
Proof.
  intros H. cbn [has_repeat]. apply orb_true_iff. left.
  apply existsb_exists. exists i. split; [exact H | apply Nat.eqb_refl].
Qed.

(** A tuple of axes that names the sample axis makes the alignment of
    the weights place one axis twice. *)
Lemma dummy_dim_repeats (d : string) (D : list string) (i : nat) :
  index_of d D = Some i ->
  has_repeat (placed (map (fun x => index_of x D) (d :: D))) = true.
Proof.
  intros Hi. cbn [map placed flat_map]. rewrite Hi. cbn [app].
  apply has_repeat_head.
  fold (placed (map (fun x => index_of x D) D)). apply placed_In.
  apply in_map_iff. exists d. split; [exact Hi |].
  eapply index_of_Some_In, Hi.
Qed.


(** ** The day grid of [sample_curve] *)








(** * Further properties of the module *)

(** ** Symmetry and nesting of the feature matrix *)

(** Mirroring the period fractions negates the sine columns and keeps the
    cosine columns. *)
Theorem generate_fourier_modes_mirror (periods : list R) (n_order : Z) :
  generate_fourier_modes (map Ropp periods) n_order
  = map (fun row => map Ropp (firstn (Z.to_nat n_order) row)
                    ++ skipn (Z.to_nat n_order) row)
        (generate_fourier_modes periods n_order).
Proof.
  rewrite !generate_fourier_modes_rows, !map_map. apply map_ext. intros p.
  unfold mode_row.
  assert (Hlen : length (map (fun k => mode Sin k p) (Py.range 1 (n_order + 1)))
                 = Z.to_nat n_order).
  { rewrite length_map, PyFacts.range_length. lia. }
  rewrite firstn_app, skipn_app, Hlen, Nat.sub_diag.
  rewrite firstn_all2, skipn_all2 by lia. cbn [firstn skipn app].
  rewrite app_nil_r.
  rewrite map_map. f_equal; apply map_ext; intros k; unfold mode, trig_fun.
  - replace (2 * PI * - p * IZR k)%R with (- (2 * PI * p * IZR k))%R by ring.
    apply sin_neg.
  - replace (2 * PI * - p * IZR k)%R with (- (2 * PI * p * IZR k))%R by ring.
    apply cos_neg.
Qed.

(** The generator does not check the order: for an order below one the
    matrix keeps one row per input, each without columns, and there are
    no labels. *)
Theorem generate_fourier_modes_no_harmonics (periods : list R) (n_order : Z) :
  n_order <= 0 ->
  generate_fourier_modes periods n_order = map (fun _ => []) periods
  /\ has_shape (generate_fourier_modes periods n_order) (length periods) 0
  /\ nodes n_order = [].
Proof.
  intros Hn.
  assert (Hr : Py.range 1 (n_order + 1) = []).
  { unfold Py.range. now replace (Z.to_nat (n_order + 1 - 1)) with 0%nat by lia. }
  split; [| split].
  - rewrite generate_fourier_modes_rows. apply map_ext. intros p.
    unfold mode_row. now rewrite Hr.
  - pose proof (has_shape_generate_fourier_modes periods n_order) as H.
    now replace (Z.to_nat (2 * n_order)) with 0%nat in H by lia.
  - rewrite nodes_app. now rewrite Hr.
Qed.

Lemma generate_fourier_modes_no_harmonics_witness :
  generate_fourier_modes [(1 / 3)%R; 2%R] 0 = [[]; []].
Proof.
  apply (generate_fourier_modes_no_harmonics [(1 / 3)%R; 2%R] 0). lia.
Defined.

Lemma nodes_In (n_order : Z) (l : string) :
  In l (nodes n_order) <-> exists f k, l = label f k /\ 1 <= k <= n_order.
Proof.
  rewrite nodes_app, in_app_iff, !in_map_iff. split.
  - intros [(k & <- & Hk) | (k & <- & Hk)]; apply PyFacts.range_In in Hk;
      [exists Sin, k | exists Cos, k]; (split; [reflexivity | lia]).
  - intros (f & k & -> & Hk).
    destruct f; [left | right]; exists k;
      (split; [reflexivity | apply PyFacts.range_In; lia]).
Qed.

Lemma entry_by_label (periods : list R) (n_order : Z) (p : nat) (x : R)
    (f : trig) (k : Z) :
  nth_error periods p = Some x -> 1 <= k <= n_order ->
  exists i,
    index_of (label f k) (nodes n_order) = Some i
    /\ entry (generate_fourier_modes periods n_order) p i = Some (mode f k x).
Proof.
  intros Hp Hk. destruct f.
  - exists (Z.to_nat (k - 1)). split; [now apply index_of_sin |].
    rewrite (entry_generate_fourier_modes _ _ _ _ _ Hp), mode_row_sin by lia.
    now replace (k - 1 + 1) with k by lia.
  - exists (Z.to_nat (n_order + k - 1)). split; [now apply index_of_cos |].
    rewrite (entry_generate_fourier_modes _ _ _ _ _ Hp), mode_row_cos by lia.
    now replace (n_order + k - 1 - n_order + 1) with k by lia.
Qed.

(** Raising the order only adds columns: a label of the order [n] is a
    label of any higher order [m], and the column it names holds the same
    values in both matrices (at another position for the cosines). *)
Theorem generate_fourier_modes_nested
    (periods : list R) (n m : Z) (p : nat) (x : R) (l : string) :
  n <= m ->
  nth_error periods p = Some x ->
  In l (nodes n) ->
  exists (i j : nat) (v : R),
    index_of l (nodes n) = Some i
    /\ index_of l (nodes m) = Some j
    /\ entry (generate_fourier_modes periods n) p i = Some v
    /\ entry (generate_fourier_modes periods m) p j = Some v.
Proof.
  intros Hnm Hp Hl. apply nodes_In in Hl as (f & k & -> & Hk).
  destruct (entry_by_label periods n p x f k Hp Hk) as (i & Hi & Hvi).
  destruct (entry_by_label periods m p x f k Hp) as (j & Hj & Hvj); [lia |].
  now exists i, j, (mode f k x).
Qed.

Lemma generate_fourier_modes_nested_witness :
  exists (i j : nat) (v : R),
    index_of "cos_1" (nodes 1) = Some i
    /\ index_of "cos_1" (nodes 3) = Some j
    /\ entry (generate_fourier_modes [(1 / 8)%R] 1) 0 i = Some v
    /\ entry (generate_fourier_modes [(1 / 8)%R] 3) 0 j = Some v.
Proof.
  apply (generate_fourier_modes_nested [(1 / 8)%R] 1 3 0 (1 / 8)%R "cos_1");
    [lia | reflexivity | simpl; auto].
Defined.

(** ** The constructor: outcomes, sharing and frame *)

(** The outcome of [__init__] as a decision table, the checks in the
    order the constructor makes them: the error of the order for an order
    that is not a positive integer; else the error of the name for a
    variable name equal to the prefix; else the error of the missing axis
    for a prior that declares axes without the prefix; else an instance
    with the order, the prefix and the variable name the arguments and
    the class defaults give. *)
Theorem init_outcome
    (c : FourierBase.class) (o : Py.obj) (prefix : option string)
    (prior : option addr) (name : option string) (st : store) :
  let prefix' := Py.str_or prefix (FourierBase.class_prefix c) in
  let prior' := match prior with
                | Some p => p
                | None => FourierBase.default_prior c
                end in
  let name' := Py.str_or name (prefix' ++ "_beta")%string in
  let D := dims (objects st prior') in
  match fst (FourierBase.init c o prefix prior name st) with
  | inl InvalidOrder => ~ Py.positive_integer o
  | inl NameCollision => Py.positive_integer o /\ name' = prefix'
  | inl MissingAxis =>
      Py.positive_integer o /\ name' <> prefix' /\ D <> [] /\ ~ In prefix' D
  | inr self =>
      Py.as_int o = Some (FourierBase.n_order self)
      /\ 1 <= FourierBase.n_order self
      /\ name' <> prefix'
      /\ (D = [] \/ In prefix' D)
      /\ FourierBase.cls self = c
      /\ FourierBase.prefix self = prefix'
      /\ FourierBase.variable_name self = name'
  end.
Proof.
  intros prefix' prior' name' D.
  destruct (positive_integer_dec o) as [(n & Hn & Hn') | Ho];
    [| now rewrite init_invalid].
  assert (Hpos : Py.positive_integer o) by now exists n.
  rewrite (init_valid_order _ _ _ _ _ n) by assumption. cbv zeta.
  fold prefix' prior' name'.
  destruct (String.eqb_spec name' prefix') as [E | E]; [now split |].
  destruct D as [|d ds] eqn:HD; unfold D in HD.
  - rewrite init_prior_empty by assumption. cbn. auto 10.
  - rewrite init_prior_nonempty by congruence. rewrite HD.
    destruct (existsb (String.eqb prefix') (d :: ds)) eqn:Hex; cbn [fst].
    + apply existsb_eqb_In in Hex. cbn [FourierBase.n_order FourierBase.cls
        FourierBase.prefix FourierBase.variable_name]. auto 10.
    + split; [assumption |]. split; [assumption |].
      split; [discriminate |].
      intros Hin. apply existsb_eqb_In in Hin. congruence.
Qed.

(** A prior that declares axes is not copied: the instance refers to the
    very object the caller passed (or to the default prior of the class),
    and the store is left as it was. *)
Theorem init_shares_prior_with_dims
    (c : FourierBase.class) (o : Py.obj) (prefix : option string)
    (prior : option addr) (name : option string) (st st' : store)
    (self : FourierBase.t) :
  let prior' := match prior with
                | Some p => p
                | None => FourierBase.default_prior c
                end in
  dims (objects st prior') <> [] ->
  FourierBase.init c o prefix prior name st = (inr self, st') ->
  FourierBase.prior self = prior' /\ st' = st.
Proof.
  intros prior' HD.
  destruct (positive_integer_dec o) as [(n & Hn & Hn') | Ho];
    [| now rewrite init_invalid].
  rewrite (init_valid_order _ _ _ _ _ n) by assumption. cbv zeta.
  fold prior'. destruct (String.eqb _ _); [discriminate |].
  rewrite init_prior_nonempty by assumption.
  destruct (existsb _ _); [| discriminate].
  now intros [= <- <-].
Qed.

Lemma init_shares_prior_with_dims_witness :
  FourierBase.prior
    (FourierBase.New YearlyFourier 3 "fourier" 1%nat "fourier_beta") = 1%nat
  /\ store_with (mkPrior "Normal" [] ["fourier"; "hierarchy"])
     = store_with (mkPrior "Normal" [] ["fourier"; "hierarchy"]).
Proof.
  apply (init_shares_prior_with_dims YearlyFourier (Py.Int 3) None
           (Some 1%nat) None
           (store_with (mkPrior "Normal" [] ["fourier"; "hierarchy"]))).
  - discriminate.
  - reflexivity.
Defined.

(** Whatever the outcome, the constructor modifies no object that
    existed before the call and frees none; when it raises, the store is
    exactly as before. *)
Theorem init_frame
    (c : FourierBase.class) (o : Py.obj) (prefix : option string)
    (prior : option addr) (name : option string) (st : store) (a : addr) :
  (a < next st)%nat ->
  objects (snd (FourierBase.init c o prefix prior name st)) a = objects st a
  /\ (next st <= next (snd (FourierBase.init c o prefix prior name st)))%nat
  /\ (forall e, fst (FourierBase.init c o prefix prior name st) = inl e ->
                snd (FourierBase.init c o prefix prior name st) = st).
Proof.
  intros Ha.
  destruct (positive_integer_dec o) as [(n & Hn & Hn') | Ho];
    [| rewrite init_invalid by assumption; cbn; auto].
  rewrite (init_valid_order _ _ _ _ _ n) by assumption. cbv zeta.
  destruct (String.eqb _ _); [cbn; auto |].
  set (pfx := Py.str_or prefix _).
  set (p := match prior with Some _ => _ | None => _ end).
  destruct (dims (objects st p)) as [|d ds] eqn:E.
  - rewrite init_prior_empty by assumption. cbn.
    destruct (Nat.eqb_spec a (next st)); [lia |].
    repeat split; [lia | discriminate].
  - rewrite init_prior_nonempty by congruence.
    destruct (existsb _ _); cbn; auto.
Qed.

Lemma init_frame_witness :
  objects (snd (FourierBase.init YearlyFourier (Py.Int 2) None None None
                  initial_store)) 0%nat
  = laplace_prior.
Proof.
  apply (init_frame YearlyFourier (Py.Int 2) None None None initial_store 0%nat).
  simpl. lia.
Defined.

Lemma str_or_nonempty (a : option string) (d : string) :
  d <> "" -> Py.str_or a d <> "".
Proof. intros Hd. destruct a as [[|ch s]|]; simpl; congruence. Qed.

(** Every instance the constructor returns satisfies, in the store it
    leaves, what [apply] relies on: the prefix is one of the axes of the
    prior, the order is at least one, and the variable name is neither
    the prefix nor empty. *)
Theorem init_establishes_invariant
    (c : FourierBase.class) (o : Py.obj) (prefix : option string)
    (prior : option addr) (name : option string) (st st' : store)
    (self : FourierBase.t) :
  FourierBase.init c o prefix prior name st = (inr self, st') ->
  In (FourierBase.prefix self) (dims (objects st' (FourierBase.prior self)))
  /\ 1 <= FourierBase.n_order self
  /\ FourierBase.variable_name self <> FourierBase.prefix self
  /\ FourierBase.variable_name self <> "".
Proof.
  intros H. destruct (init_invariant _ _ _ _ _ _ _ _ H) as [Hin Hn].
  pose proof (init_outcome c o prefix prior name st) as Ho.
  cbv zeta in Ho. rewrite H in Ho. cbn [fst] in Ho.
  destruct Ho as (_ & _ & Hne & _ & _ & Hp & Hv).
  repeat split; try assumption.
  - now rewrite Hp, Hv.
  - rewrite Hv. apply str_or_nonempty.
    intros E. apply (f_equal String.length) in E.
    rewrite append_length in E. simpl in E. lia.
Qed.

Lemma init_establishes_invariant_witness :
  In "fourier" (dims (objects
                        (snd (FourierBase.init YearlyFourier (Py.Int 2) None
                                None None initial_store)) 1%nat))
  /\ 1 <= 2
  /\ "fourier_beta" <> "fourier"
  /\ "fourier_beta" <> "".
Proof.
  apply (init_establishes_invariant YearlyFourier (Py.Int 2) None None None
           initial_store _ yearly_2).
  reflexivity.
Defined.

(** An empty string given as prefix or as name counts as no argument:
    the class prefix, respectively prefix + "_beta", is used.  With a
    class prefix that is not empty, no instance has an empty prefix. *)
Theorem init_empty_strings
    (c : FourierBase.class) (o : Py.obj) (prefix : option string)
    (prior : option addr) (name : option string) (st : store) :
  FourierBase.init c o (Some "") prior name st
  = FourierBase.init c o None prior name st
  /\ FourierBase.init c o prefix prior (Some "") st
     = FourierBase.init c o prefix prior None st
  /\ (forall self st',
         FourierBase.class_prefix c <> "" ->
         FourierBase.init c o prefix prior name st = (inr self, st') ->
         FourierBase.prefix self <> "").
Proof.
  split; [reflexivity | split; [reflexivity |]].
  intros self st' Hc H.
  pose proof (init_outcome c o prefix prior name st) as Ho.
  cbv zeta in Ho. rewrite H in Ho. cbn [fst] in Ho.
  destruct Ho as (_ & _ & _ & _ & _ & Hp & _).
  rewrite Hp. now apply str_or_nonempty.
Qed.

Lemma init_empty_strings_witness :
  FourierBase.prefix yearly_2 <> "".
Proof.
  destruct (init_empty_strings YearlyFourier (Py.Int 2) (Some "") None None
              initial_store) as (_ & _ & H).
  apply (H yearly_2 (snd (FourierBase.init YearlyFourier (Py.Int 2) None None
                            None initial_store))).
  - discriminate.
  - reflexivity.
Defined.

(** Two instances built on the default prior, of the same class or of
    two classes that inherit it, never share a prior object: each gets
    its own copy with its prefix as only axis, and the default prior is
    still without axes afterwards. *)
Theorem init_default_priors_are_separate
    (c1 c2 : FourierBase.class) (o1 o2 : Py.obj)
    (prefix1 prefix2 : option string) (name1 name2 : option string)
    (st st1 st2 : store) (self1 self2 : FourierBase.t) :
  FourierBase.default_prior c2 = FourierBase.default_prior c1 ->
  (FourierBase.default_prior c1 < next st)%nat ->
  dims (objects st (FourierBase.default_prior c1)) = [] ->
  FourierBase.init c1 o1 prefix1 None name1 st = (inr self1, st1) ->
  FourierBase.init c2 o2 prefix2 None name2 st1 = (inr self2, st2) ->
  FourierBase.prior self1 <> FourierBase.prior self2
  /\ dims (objects st2 (FourierBase.prior self1)) = [FourierBase.prefix self1]
  /\ dims (objects st2 (FourierBase.prior self2)) = [FourierBase.prefix self2]
  /\ objects st2 (FourierBase.default_prior c1)
     = objects st (FourierBase.default_prior c1).
Proof.
  intros Hc Hlt Hd H1 H2.
  assert (Hstep : forall c o prefix name s s' self,
             (FourierBase.default_prior c < next s)%nat ->
             dims (objects s (FourierBase.default_prior c)) = [] ->
             FourierBase.init c o prefix None name s = (inr self, s') ->
             FourierBase.prior self = next s
             /\ next s' = S (next s)
             /\ dims (objects s' (next s)) = [FourierBase.prefix self]
             /\ forall a, (a < next s)%nat -> objects s' a = objects s a).
  { intros c o prefix name s s' self Hl Hdm.
    destruct (positive_integer_dec o) as [(n & Hn & Hn') | Ho];
      [| now rewrite init_invalid].
    rewrite (init_valid_order _ _ _ _ _ n) by assumption. cbv zeta.
    destruct (String.eqb _ _); [discriminate |].
    rewrite init_prior_empty by assumption.
    intros [= <- <-]. cbn. rewrite Nat.eqb_refl. repeat split.
    intros a Ha. destruct (Nat.eqb_spec a (next s)); [lia | reflexivity]. }
  destruct (Hstep _ _ _ _ _ _ _ Hlt Hd H1) as (Hp1 & Hn1 & Hd1 & Hf1).
  assert (Hlt1 : (FourierBase.default_prior c2 < next st1)%nat)
    by (rewrite Hc; lia).
  assert (Hd1' : dims (objects st1 (FourierBase.default_prior c2)) = [])
    by (rewrite Hc; now rewrite Hf1).
  destruct (Hstep _ _ _ _ _ _ _ Hlt1 Hd1' H2) as (Hp2 & Hn2 & Hd2 & Hf2).
  rewrite Hp1, Hp2. repeat split.
  - lia.
  - rewrite Hf2 by lia. exact Hd1.
  - exact Hd2.
  - rewrite Hf2, Hf1 by lia. reflexivity.
Qed.

Lemma init_default_priors_are_separate_witness :
  1%nat <> 2%nat
  /\ dims (objects
             (snd (FourierBase.init MonthlyFourier (Py.Int 3) (Some "monthly")
                     None None
                     (snd (FourierBase.init YearlyFourier (Py.Int 2) None None
                             None initial_store)))) 1%nat)
     = ["fourier"].
Proof.
  destruct (init_default_priors_are_separate YearlyFourier MonthlyFourier
              (Py.Int 2) (Py.Int 3) None (Some "monthly") None None
              initial_store
              (snd (FourierBase.init YearlyFourier (Py.Int 2) None None None
                      initial_store))
              (snd (FourierBase.init MonthlyFourier (Py.Int 3) (Some "monthly")
                      None None
                      (snd (FourierBase.init YearlyFourier (Py.Int 2) None None
                              None initial_store))))
              yearly_2
              (FourierBase.New MonthlyFourier 3 "monthly" 2%nat "monthly_beta"))
    as (H1 & H2 & _).
  - reflexivity.
  - simpl. lia.
  - reflexivity.
  - reflexivity.
  - reflexivity.
  - split; [exact H1 | exact H2].
Defined.

(** ** The contraction: callback, failures, Fourier series *)

(** The tensor [apply] hands to [result_callback] has the axes
    [(DATE, *prior.dims)], the prefix axis still present: its entry at
    the sample [p] and the index [full] of the axes of the weights is the
    feature of [p] named by the prefix position of [full], times the
    weight at [full].  Without a callback [apply] returns that tensor
    summed over the prefix axis; with one, the callback runs on it first
    and an exception of the callback is an exception of [apply]. *)
Theorem apply_callback_product (B : backend) (st : store) (m m1 m2 : model B)
    (self : FourierBase.t) (beta : tensor) (dayofyear : list R) (k : nat) :
  let D := dims (objects st (FourierBase.prior self)) in
  let n := FourierBase.n_order self in
  let pfx := FourierBase.prefix self in
  let q := FourierBase.days_in_period (FourierBase.cls self) in
  let periods := map (fun d => (d / Q2R q)%R) dayofyear in
  NoDup D ->
  ~ In FourierBase.DUMMY_DIM D ->
  index_of pfx D = Some k ->
  add_coord B pfx (Labels (nodes n)) m = Some m1 ->
  create_variable B (objects st (FourierBase.prior self))
    (FourierBase.variable_name self) m1 = Some (beta, m2) ->
  length (shape beta) = length D ->
  nth k (shape beta) 0%nat = length (nodes n) ->
  exists result,
    FourierBase.apply B st (Some m) self dayofyear None
    = Some (sum_axis (k + 1) result, m2)
    /\ (forall callback,
           FourierBase.apply B st (Some m) self dayofyear (Some callback)
           = match callback result m2 with
             | None => None
             | Some m3 => Some (sum_axis (k + 1) result, m3)
             end)
    /\ shape result = length dayofyear :: shape beta
    /\ forall p full,
        (p < length dayofyear)%nat ->
        in_range (shape beta) full ->
        item result (p :: full)
        = (nth (nth k full 0%nat)
               (nth p (generate_fourier_modes periods n) []) 0
           * item beta full)%R.
Proof.
  intros D n pfx q periods HD Hdummy Hk Hadd Hcreate Hlen Hcols.
  destruct (apply_contracts B st m m1 m2 self beta dayofyear k
              HD Hdummy Hk Hadd Hcreate Hlen Hcols)
    as (result & Hr & Hs & Hv & _).
  exists result. split; [exact (Hr None) |].
  split; [intros callback; exact (Hr (Some callback)) |].
  split; [exact Hs | exact Hv].
Qed.

Lemma apply_callback_product_witness :
  exists result,
    FourierBase.apply (coords_backend (fun _ => 1%R))
      (snd (FourierBase.init YearlyFourier (Py.Int 2) None None None
              initial_store))
      (Some [("dayofyear", Numbers [0%Q; 1%Q; 2%Q])]) yearly_2
      [0%R; 1%R; 2%R] None
    = Some (sum_axis (0 + 1) result,
            [("dayofyear", Numbers [0%Q; 1%Q; 2%Q]);
             ("fourier", Labels (nodes 2))])
    /\ shape result = [3%nat; 4%nat].
Proof.
  destruct (apply_callback_product (coords_backend (fun _ => 1%R))
              (snd (FourierBase.init YearlyFourier (Py.Int 2) None None None
                      initial_store))
              [("dayofyear", Numbers [0%Q; 1%Q; 2%Q])]
              [("dayofyear", Numbers [0%Q; 1%Q; 2%Q]);
               ("fourier", Labels (nodes 2))]
              [("dayofyear", Numbers [0%Q; 1%Q; 2%Q]);
               ("fourier", Labels (nodes 2))]
              yearly_2 (Tensor [4%nat] (fun _ => 1%R)) [0%R; 1%R; 2%R] 0%nat)
    as (result & Hr & _ & Hs & _); try reflexivity.
  - simpl. repeat constructor. intros [].
  - simpl. intuition discriminate.
  - exists result. split; [exact Hr | exact Hs].
Defined.

(** [apply] raises, whatever the backend and the callback do: outside a
    model context; when [add_coord] raises (as for a model that has
    other values under the prefix); when [create_variable] raises;
    when the prefix is not one of the axes of the prior, which is then
    changed since the construction; and when an axis of the prior is
    named DATE like the sample axis. *)
Theorem apply_raises (B : backend) (st : store) (ctx : option (model B))
    (self : FourierBase.t) (dayofyear : list R)
    (cb : option (tensor -> model B -> option (model B))) :
  let D := dims (objects st (FourierBase.prior self)) in
  let pfx := FourierBase.prefix self in
  let labels := Labels (nodes (FourierBase.n_order self)) in
  ctx = None
  \/ (exists m, ctx = Some m /\ add_coord B pfx labels m = None)
  \/ (exists m m1, ctx = Some m /\ add_coord B pfx labels m = Some m1
                   /\ create_variable B (objects st (FourierBase.prior self))
                        (FourierBase.variable_name self) m1 = None)
  \/ ~ In pfx D
  \/ In FourierBase.DUMMY_DIM D ->
  FourierBase.apply B st ctx self dayofyear cb = None.
Proof.
  intros D pfx labels H. unfold FourierBase.apply. fold D pfx labels.
  destruct H as [-> | [(m & -> & Ha) | [(m & m1 & -> & Ha & Hc) | H]]];
    [reflexivity | now rewrite Ha | now rewrite Ha, Hc |].
  destruct ctx as [m|]; [| reflexivity].
  destruct (add_coord B pfx labels m) as [m1|]; [| reflexivity].
  destruct (create_variable B _ _ m1) as [[beta m2]|]; [| reflexivity].
  destruct H as [Hnot | Hdummy].
  - now rewrite (index_of_notin _ _ Hnot).
  - destruct (index_of pfx D) as [k|]; [| reflexivity]. cbv zeta.
    destruct (create_dim_handler _ _ [FourierBase.DUMMY_DIM; pfx]);
      [| reflexivity].
    destruct (index_of_In _ _ Hdummy) as (i & Hi & _).
    unfold create_dim_handler, dimshuffle.
    now rewrite (dummy_dim_repeats _ _ _ Hi).
Qed.

Lemma apply_raises_witness :
  FourierBase.apply (coords_backend (fun _ => 1%R))
    (store_with (mkPrior "Normal" [] ["fourier"]))
    (Some [("fourier", Labels ["a"; "b"; "c"])]) yearly_2 [0%R; 7%R] None
  = None.
Proof.
  apply (apply_raises (coords_backend (fun _ => 1%R))
           (store_with (mkPrior "Normal" [] ["fourier"]))
           (Some [("fourier", Labels ["a"; "b"; "c"])]) yearly_2 [0%R; 7%R]
           None).
  right. left. exists [("fourier", Labels ["a"; "b"; "c"])].
  split; reflexivity.
Defined.

Lemma sum_upto_split (a b : nat) (f : nat -> R) :
  sum_upto (a + b) f
  = (sum_upto a f + sum_upto b (fun i => f (a + i)%nat))%R.
Proof.
  induction b as [|b IH]; simpl.
  - rewrite Nat.add_0_r. ring.
  - rewrite Nat.add_succ_r. simpl. rewrite IH. ring.
Qed.

Lemma sum_upto_plus (n : nat) (f g : nat -> R) :
  sum_upto n (fun j => (f j + g j)%R) = (sum_upto n f + sum_upto n g)%R.
Proof.
  induction n as [|n IH]; simpl; [ring | rewrite IH; ring].
Qed.

Lemma mode_row_nth_sin (n : Z) (x : R) (i : nat) :
  (i < Z.to_nat n)%nat ->
  nth i (mode_row n x) 0%R = mode Sin (Z.of_nat i + 1) x.
Proof.
  intros Hi. apply nth_error_nth.
  rewrite <- (Nat2Z.id i) at 1. apply mode_row_sin. lia.
Qed.

Lemma mode_row_nth_cos (n : Z) (x : R) (i : nat) :
  (i < Z.to_nat n)%nat ->
  nth (Z.to_nat n + i) (mode_row n x) 0%R = mode Cos (Z.of_nat i + 1) x.
Proof.
  intros Hi. apply nth_error_nth.
  replace (Z.to_nat n + i)%nat with (Z.to_nat (n + Z.of_nat i)) by lia.
  rewrite mode_row_cos by lia. do 2 f_equal. lia.
Qed.

(** The sum over the columns of a row of features, regrouped by
    harmonic. *)
Lemma series_of_sum (periods : list R) (n : Z) (p : nat) (x : R)
    (w : nat -> R) :
  nth_error periods p = Some x ->
  sum_upto (Z.to_nat (2 * n))
    (fun j => (nth j (nth p (generate_fourier_modes periods n) []) 0 * w j)%R)
  = sum_upto (Z.to_nat n)
      (fun i =>
         (w i * sin (2 * PI * x * IZR (Z.of_nat i + 1))
          + w (Z.to_nat n + i)%nat
            * cos (2 * PI * x * IZR (Z.of_nat i + 1)))%R).
Proof.
  intros Hp. rewrite generate_fourier_modes_rows.
  rewrite (nth_error_nth _ _ _
             (eq_trans (nth_error_map _ _ _) (f_equal (option_map _) Hp))).
  cbn [option_map].
  replace (Z.to_nat (2 * n)) with (Z.to_nat n + Z.to_nat n)%nat by lia.
  rewrite sum_upto_split, <- sum_upto_plus.
  apply sum_upto_ext. intros i Hi.
  rewrite mode_row_nth_sin, mode_row_nth_cos by assumption.
  unfold mode, trig_fun. ring.
Qed.

(** The result of [apply] is the Fourier series of the weights: at the
    day [d] and the index [idx] of the other axes it is the sum over the
    harmonics [h = 1 .. n_order] of the weight labelled sin_h times
    [sin (2 PI h d / days_in_period)] plus the weight labelled cos_h
    times [cos (2 PI h d / days_in_period)]. *)
Theorem apply_fourier_series (B : backend) (st : store) (m m1 m2 : model B)
    (self : FourierBase.t) (beta : tensor) (dayofyear : list R)
    (k p : nat) (d : R) (idx : list nat) :
  let D := dims (objects st (FourierBase.prior self)) in
  let n := FourierBase.n_order self in
  let pfx := FourierBase.prefix self in
  let q := FourierBase.days_in_period (FourierBase.cls self) in
  NoDup D ->
  ~ In FourierBase.DUMMY_DIM D ->
  index_of pfx D = Some k ->
  add_coord B pfx (Labels (nodes n)) m = Some m1 ->
  create_variable B (objects st (FourierBase.prior self))
    (FourierBase.variable_name self) m1 = Some (beta, m2) ->
  length (shape beta) = length D ->
  nth k (shape beta) 0%nat = length (nodes n) ->
  nth_error dayofyear p = Some d ->
  in_range (remove_at k (shape beta)) idx ->
  exists r,
    FourierBase.apply B st (Some m) self dayofyear None = Some (r, m2)
    /\ item r (p :: idx)
       = sum_upto (Z.to_nat n)
           (fun i =>
              (item beta (insert_at k i idx)
               * sin (2 * PI * (d / Q2R q) * IZR (Z.of_nat i + 1))
               + item beta (insert_at k (Z.to_nat n + i) idx)
                 * cos (2 * PI * (d / Q2R q) * IZR (Z.of_nat i + 1)))%R).
Proof.
  intros D n pfx q HD Hdummy Hk Hadd Hcreate Hlen Hcols Hp Hidx.
  destruct (apply_contracts B st m m1 m2 self beta dayofyear k
              HD Hdummy Hk Hadd Hcreate Hlen Hcols)
    as (result & Hr & _ & _ & _ & Hv).
  exists (sum_axis (k + 1) result). split; [exact (Hr None) |].
  rewrite Hv; [| apply nth_error_Some; congruence | exact Hidx].
  fold n q.
  apply (series_of_sum _ n p (d / Q2R q)%R
           (fun j => item beta (insert_at k j idx))).
  now rewrite nth_error_map, Hp.
Qed.

Lemma apply_fourier_series_witness :
  exists r,
    FourierBase.apply (coords_backend (fun _ => 1%R))
      (store_with (mkPrior "Normal" [] ["hierarchy"; "fourier"]))
      (Some [("hierarchy", Labels ["a"; "b"; "c"])]) yearly_2
      [0%R; 7%R] None
    = Some (r, [("hierarchy", Labels ["a"; "b"; "c"]);
                ("fourier", Labels (nodes 2))])
    /\ item r [1%nat; 2%nat]
       = sum_upto 2
           (fun i =>
              (1 * sin (2 * PI * (7 / Q2R DAYS_IN_YEAR) * IZR (Z.of_nat i + 1))
               + 1 * cos (2 * PI * (7 / Q2R DAYS_IN_YEAR)
                          * IZR (Z.of_nat i + 1)))%R).
Proof.
  apply (apply_fourier_series (coords_backend (fun _ => 1%R))
           (store_with (mkPrior "Normal" [] ["hierarchy"; "fourier"]))
           [("hierarchy", Labels ["a"; "b"; "c"])]
           [("hierarchy", Labels ["a"; "b"; "c"]);
            ("fourier", Labels (nodes 2))]
           [("hierarchy", Labels ["a"; "b"; "c"]);
            ("fourier", Labels (nodes 2))]
           yearly_2 (Tensor [3%nat; 4%nat] (fun _ => 1%R)) [0%R; 7%R]
           1%nat 1%nat 7%R [2%nat]); try reflexivity.
  - simpl. repeat constructor; simpl; intuition discriminate.
  - simpl. intuition discriminate.
  - repeat constructor.
Defined.

(** The constructor and [apply] compose: for an instance the constructor
    has just returned, in the store the constructor left, [apply]
    returns as soon as the axes of the prior are distinct, none is named
    DATE and the two calls into the backend succeed with a weight tensor
    that has one axis per axis of the prior, the prefix axis as long as
    the labels; the result has one entry per day and per index of the
    other axes. *)
Theorem init_then_apply
    (c : FourierBase.class) (o : Py.obj) (prefix : option string)
    (prior : option addr) (name : option string) (st st' : store)
    (self : FourierBase.t) (B : backend) (m m1 m2 : model B) (beta : tensor)
    (dayofyear : list R) :
  let D := dims (objects st' (FourierBase.prior self)) in
  let pfx := FourierBase.prefix self in
  let n := FourierBase.n_order self in
  FourierBase.init c o prefix prior name st = (inr self, st') ->
  NoDup D ->
  ~ In FourierBase.DUMMY_DIM D ->
  add_coord B pfx (Labels (nodes n)) m = Some m1 ->
  create_variable B (objects st' (FourierBase.prior self))
    (FourierBase.variable_name self) m1 = Some (beta, m2) ->
  length (shape beta) = length D ->
  (forall k, index_of pfx D = Some k ->
             nth k (shape beta) 0%nat = length (nodes n)) ->
  exists k result,
    index_of pfx D = Some k
    /\ FourierBase.apply B st' (Some m) self dayofyear None
       = Some (result, m2)
    /\ shape result = length dayofyear :: remove_at k (shape beta).
Proof.
  intros D pfx n Hinit HD Hdummy Hadd Hcreate Hlen Hcols.
  destruct (init_invariant _ _ _ _ _ _ _ _ Hinit) as (Hin & _). fold D in Hin.
  destruct (index_of_In _ _ Hin) as (k & Hk & _).
  destruct (apply_contracts B st' m m1 m2 self beta dayofyear k
              HD Hdummy Hk Hadd Hcreate Hlen (Hcols k Hk))
    as (result & Hr & _ & _ & Hs & _).
  exists k, (sum_axis (k + 1) result).
  split; [exact Hk |]. split; [exact (Hr None) | exact Hs].
Qed.

Lemma init_then_apply_witness :
  exists k result,
    index_of "fourier" ["fourier"; "additional_dim"] = Some k
    /\ FourierBase.apply (coords_backend (fun _ => 1%R))
         (store_with (mkPrior "Normal" [] ["fourier"; "additional_dim"]))
         (Some [("additional_dim", Numbers [0%Q; 1%Q])])
         (FourierBase.New YearlyFourier 2 "fourier" 1%nat "fourier_beta")
         [0%R; 1%R; 2%R] None
       = Some (result, [("additional_dim", Numbers [0%Q; 1%Q]);
                        ("fourier", Labels (nodes 2))])
    /\ shape result = 3%nat :: remove_at k [4%nat; 2%nat].
Proof.
  apply (init_then_apply YearlyFourier (Py.Int 2) None (Some 1%nat) None
           (store_with (mkPrior "Normal" [] ["fourier"; "additional_dim"]))
           (store_with (mkPrior "Normal" [] ["fourier"; "additional_dim"]))
           (FourierBase.New YearlyFourier 2 "fourier" 1%nat "fourier_beta")
           (coords_backend (fun _ => 1%R))
           [("additional_dim", Numbers [0%Q; 1%Q])]
           [("additional_dim", Numbers [0%Q; 1%Q]);
            ("fourier", Labels (nodes 2))]
           [("additional_dim", Numbers [0%Q; 1%Q]);
            ("fourier", Labels (nodes 2))]
           (Tensor [4%nat; 2%nat] (fun _ => 1%R)) [0%R; 1%R; 2%R]);
    try reflexivity.
  - simpl. repeat constructor; simpl; intuition discriminate.
  - simpl. intuition discriminate.
  - simpl. intros k [= <-]. reflexivity.
Defined.

(** ** The curve of [sample_curve] and the coordinates of [sample_prior] *)



Lemma dict_get_set_same {V : Type} (k : string) (v : V) (d : dict V) :
  dict_get k (dict_set k v d) = Some v.
Proof.
  induction d as [|[k' v'] d IH]; simpl.
  - now rewrite String.eqb_refl.
  - destruct (String.eqb_spec k' k) as [->|Hne]; simpl.
    + now rewrite String.eqb_refl.
    + destruct (String.eqb_spec k' k); [contradiction | exact IH].
Qed.

Lemma dict_get_set_other {V : Type} (k key : string) (v : V) (d : dict V) :
  key <> k -> dict_get key (dict_set k v d) = dict_get key d.
Proof.
  intros Hne. induction d as [|[k' v'] d IH]; simpl.
  - destruct (String.eqb_spec k key); [congruence | reflexivity].
  - destruct (String.eqb_spec k' k) as [->|Hk]; simpl.
    + destruct (String.eqb_spec k key); [congruence | reflexivity].
    + now rewrite IH.
Qed.

Lemma dict_set_keys {V : Type} (k : string) (v : V) (d : dict V) :
  map fst (dict_set k v d)
  = if existsb (String.eqb k) (map fst d) then map fst d
    else map fst d ++ [k].
Proof.
  induction d as [|[k' v'] d IH]; simpl; [reflexivity |].
  rewrite (String.eqb_sym k k').
  destruct (String.eqb_spec k' k) as [->|Hk]; simpl; [reflexivity |].
  rewrite IH. now destruct (existsb _ _).
Qed.

(** [sample_prior] hands to the prior the coordinates of the caller with
    the labels of the harmonics under the prefix: whatever the caller
    put under that key is replaced, every other key keeps its value and
    its position.  A dictionary of the caller that is not empty is
    itself modified by the call; an empty one is left empty. *)
Theorem sample_prior_coords_spec (self : FourierBase.t)
    (coords : option (dict (list string))) :
  let pfx := FourierBase.prefix self in
  let given := match coords with Some d => d | None => [] end in
  let passed := fst (sample_prior_coords self coords) in
  dict_get pfx passed = Some (nodes (FourierBase.n_order self))
  /\ (forall key, key <> pfx -> dict_get key passed = dict_get key given)
  /\ map fst passed
     = (if existsb (String.eqb pfx) (map fst given) then map fst given
        else map fst given ++ [pfx])
  /\ snd (sample_prior_coords self coords)
     = match coords with
       | Some (kv :: rest) => Some passed
       | other => other
       end.
Proof.
  intros pfx given passed.
  assert (Hp : passed
               = dict_set pfx (nodes (FourierBase.n_order self)) given).
  { unfold passed, given, sample_prior_coords.
    now destruct coords as [[|kv rest]|]. }
  rewrite Hp. split; [apply dict_get_set_same |].
  split; [intros key Hk; now apply dict_get_set_other |].
  split; [apply dict_set_keys |].
  rewrite <- Hp. unfold passed, sample_prior_coords.
  now destruct coords as [[|kv rest]|].
Qed.
